(** * VibeCAD backend: DFM validation and cost estimation

    A shallow embedding of [src/backend/dfm_validator.py] and
    [src/backend/cost_estimator.py].

    Conventions of the embedding:
    - Python floats are modelled by exact rationals [Q]; a literal such as
      [0.2] is the rational [1#5].  Floating-point rounding is not modelled.
    - A Python dict read with [d.get(key, default)] is a record of [option]
      fields; [None] is an absent key and the read falls back to the default.
    - Python's [ZeroDivisionError] is [None] in the [option] monad.
    - Free-text messages of findings are not modelled; a finding keeps its
      ['type'] and ['severity'] keys. *)

From Stdlib Require Import QArith Qround Qminmax ZArith Ascii List String Bool Lia Lqa.
From Stdlib Require Import Sorting.Sorted Sorting.Permutation.
Import ListNotations.
Open Scope string_scope.
Open Scope list_scope.

(** Python's [<] on floats, as a boolean. *)
Definition qltb (x y : Q) : bool := negb (Qle_bool y x).

Definition odflt {A} (d : A) (o : option A) : A :=
  match o with Some x => x | None => d end.

(** ** Design parameters (the [params] dict) *)

Record geometry := mk_geometry {
  wall_thickness : option Q;
  base_length : option Q;
  base_width : option Q
}.

Definition empty_geometry : geometry := mk_geometry None None None.

Record mounting := mk_mounting {
  hole_diameter : option Q;
  positions : option (list (Q * Q))
}.

Record params := mk_params {
  material : option string;
  manufacturing_process : option string;
  primary_geometry : option geometry;
  mounting_pattern : option mounting
}.

(** [temp_params = params.copy(); temp_params['manufacturing_process'] = process] *)
Definition with_process (p : params) (s : string) : params :=
  mk_params (material p) (Some s) (primary_geometry p) (mounting_pattern p).

Definition material_of (p : params) : string :=
  odflt "aluminum_6061_t6" (material p).

Definition process_of (p : params) : string :=
  odflt "cnc_milling" (manufacturing_process p).

Module DFM.

(** ** Rule tables ([DFMValidator._load_rules])

    Only the keys that [validate] reads are kept; [min_radius],
    [recommended_radius], [max_hole_depth_ratio], [max_overhang_angle],
    [recommended_infill], [layer_height] and [hardness_note] are never read. *)

Record rule := mk_rule {
  min_wall_thickness : option Q;
  recommended_wall_thickness : option (Q * Q);
  max_wall_thickness : option Q;
  min_hole_diameter : option Q;
  min_hole_spacing : option Q;
  min_edge_distance : option Q
}.

Definition rules (m pr : string) : option rule :=
  match m, pr with
  | "aluminum_6061_t6", "cnc_milling" =>
      Some (mk_rule (Some (3#2)) (Some (2, 3)) (Some 8) (Some 3) (Some 5) (Some 3))
  | "steel_mild", "cnc_milling" =>
      Some (mk_rule (Some 1) (Some (3#2, 5#2)) (Some 10) (Some (5#2)) (Some 5) (Some 3))
  | "plastic_abs", "3d_printing" =>
      Some (mk_rule (Some (4#5)) (Some (6#5, 2)) None None None None)
  | "stainless_304", "cnc_milling" =>
      Some (mk_rule (Some 1) (Some (3#2, 3)) None (Some 3) None None)
  | _, _ => None
  end.

(** ** Findings and the validation result *)

Inductive finding :=
  | Note (msg : string)                            (* a bare message string *)
  | Finding (ftype : string) (severity : option string).

Definition is_type (t : string) (f : finding) : bool :=
  match f with
  | Finding t' _ => String.eqb t t'
  | Note _ => false
  end.

Record result := mk_result {
  valid : bool;
  issues : list finding;
  warnings : list finding;
  suggestions : list finding;
  confidence : Q;
  dfm_score : option Z        (* [None]: the key is absent from the dict *)
}.

(** Python's [int(x)] on a float: truncation toward zero. *)
Definition py_int (x : Q) : Z := Z.quot (Qnum x) (Zpos (Qden x)).

(** [math.sqrt(d2) < min_spacing], for [d2 >= 0]: the square root is below
    [min_spacing] exactly when [min_spacing > 0] and [d2 < min_spacing^2]. *)
Definition sqrt_lt (d2 ms : Q) : bool := qltb 0 ms && qltb d2 (ms * ms).

Definition dist2 (p1 p2 : Q * Q) : Q :=
  (fst p1 - fst p2) * (fst p1 - fst p2) + (snd p1 - snd p2) * (snd p1 - snd p2).

(** The wall-thickness if / elif / elif chain: (issues, warnings, suggestions). *)
Definition wall_check (wt min_wall max_wall : Q) (rec : Q * Q)
  : list finding * list finding * list finding :=
  if qltb wt min_wall then
    ([Finding "wall_thickness" (Some "critical")], [], [])
  else if qltb max_wall wt then
    ([], [Finding "wall_thickness" (Some "warning")], [])
  else if qltb wt (fst rec) || qltb (snd rec) wt then
    ([], [], [Finding "wall_thickness" None])
  else ([], [], []).

(** [for i, pos1 in enumerate(positions): for pos2 in positions[i+1:]: ...] *)
Fixpoint spacing_warnings (ms : Q) (ps : list (Q * Q)) : list finding :=
  match ps with
  | [] => []
  | p1 :: rest =>
      flat_map (fun p2 =>
        if sqrt_lt (dist2 p1 p2) ms
        then [Finding "hole_spacing" (Some "warning")] else []) rest
      ++ spacing_warnings ms rest
  end.

Definition edge_warnings_one (min_edge bl bw : Q) (pos : Q * Q) : list finding :=
  let '(x, y) := pos in
  (if qltb x min_edge || qltb (bl - min_edge) x
   then [Finding "edge_distance" (Some "warning")] else [])
  ++
  (if qltb y min_edge || qltb (bw - min_edge) y
   then [Finding "edge_distance" (Some "warning")] else []).

Definition edge_warnings (min_edge bl bw : Q) (ps : list (Q * Q)) : list finding :=
  flat_map (edge_warnings_one min_edge bl bw) ps.

(** The mounting-hole block: (issues, warnings). *)
Definition hole_check (r : rule) (g : geometry) (hp : mounting)
  : list finding * list finding :=
  let d := odflt (9#2) (hole_diameter hp) in
  let ps := odflt [] (positions hp) in
  let min_hole := odflt 3 (min_hole_diameter r) in
  let iss := if qltb d min_hole
             then [Finding "hole_diameter" (Some "critical")] else [] in
  let ms := odflt 5 (min_hole_spacing r) in
  let sw := spacing_warnings ms ps in
  let min_edge := odflt 3 (min_edge_distance r) * d in
  let bl := odflt 100 (base_length g) in
  let bw := odflt 80 (base_width g) in
  (iss, sw ++ edge_warnings min_edge bl bw ps).

(** [confidence = max(0.0, min(1.0, confidence))] after the subtractions. *)
Definition score (ni nw : nat) : Q :=
  let c := 1 in
  let c := if Nat.eqb ni 0 then c else c - inject_Z (Z.of_nat ni) * (1#5) in
  let c := if Nat.eqb nw 0 then c else c - inject_Z (Z.of_nat nw) * (1#10) in
  Qmax 0 (Qmin 1 c).

Definition validate (p : params) : result :=
  let m := material_of p in
  let pr := process_of p in
  match rules m pr with
  | None =>
      mk_result true [] [Note "No DFM rules found"] [] (1#2) None
  | Some r =>
      let g := odflt empty_geometry (primary_geometry p) in
      let wt := odflt 2 (wall_thickness g) in
      let min_wall := odflt 1 (min_wall_thickness r) in
      let max_wall := odflt 10 (max_wall_thickness r) in
      let rec := odflt (2, 3) (recommended_wall_thickness r) in
      let '(wi, ww, ws) := wall_check wt min_wall max_wall rec in
      let '(hi, hw) := match mounting_pattern p with
                       | Some hp => hole_check r g hp
                       | None => ([], [])
                       end in
      let iss := wi ++ hi in
      let wrn := ww ++ hw in
      let c := score (List.length iss) (List.length wrn) in
      mk_result (Nat.eqb (List.length iss) 0) iss wrn ws c (Some (py_int (c * 100)))
  end.

End DFM.

Module Cost.

(** ** Python helpers *)

(** [a / b] on floats: [ZeroDivisionError] when [b == 0]. *)
Definition pydiv (a b : Q) : option Q :=
  if Qeq_bool b 0 then None else Some (a / b).

Definition obind {A B} (o : option A) (f : A -> option B) : option B :=
  match o with Some x => f x | None => None end.

(** Round half to even, as Python's [round] does on exact ties. *)
Definition round_half_even (x : Q) : Z :=
  let z := Qfloor x in
  let f := x - inject_Z z in
  if qltb f (1#2) then z
  else if qltb (1#2) f then (z + 1)%Z
  else if Z.even z then z else (z + 1)%Z.

(** [round(x, n)] with [scale = 10^n]. *)
Definition pyround (scale : positive) (x : Q) : Q :=
  round_half_even (x * inject_Z (Zpos scale)) # scale.

Definition round1 := pyround 10.
Definition round2 := pyround 100.
Definition round3 := pyround 1000.

(** [d.get(k, default)] on a dict of floats, as an association list. *)
Fixpoint qget (d : list (string * Q)) (k : string) (dflt : Q) : Q :=
  match d with
  | [] => dflt
  | (k', v) :: r => if String.eqb k k' then v else qget r k dflt
  end.

(** ** Static tables *)

(** [CostEstimator._load_material_prices] *)
Definition material_prices (m : string) : option Q :=
  match m with
  | "aluminum_6061_t6" => Some (24#5)
  | "steel_mild" => Some (5#2)
  | "stainless_304" => Some (31#5)
  | "plastic_abs" => Some 3
  | "plastic_pla" => Some (5#2)
  | "titanium" => Some 35
  | _ => None
  end.

(** The [densities] dict of [estimate_cost] (g/cm3). *)
Definition densities (m : string) : option Q :=
  match m with
  | "aluminum_6061_t6" => Some (27#10)
  | "steel_mild" => Some (157#20)
  | "stainless_304" => Some 8
  | "plastic_abs" => Some (21#20)
  | "plastic_pla" => Some (5#4)
  | "titanium" => Some (9#2)
  | _ => None
  end.

(** [CostEstimator._load_process_rates] *)
Definition process_rates (pr : string) : option (list (string * Q)) :=
  match pr with
  | "cnc_milling" => Some [("labor_rate", 16); ("overhead_rate", 1#4);
                           ("tooling_base", 50); ("time_per_cm3", 1#2);
                           ("setup_time", 15)]
  | "3d_printing" => Some [("machine_rate", 8); ("overhead_rate", 3#20);
                           ("time_per_cm3", 2); ("support_factor", 7#5)]
  | "injection_molding" => Some [("mold_cost", 5000); ("cycle_time", 30);
                                 ("labor_rate", 12); ("overhead_rate", 1#5)]
  | "sheet_metal" => Some [("labor_rate", 14); ("overhead_rate", 11#50);
                           ("cutting_time", 3#10); ("bending_time", 2)]
  | _ => None
  end.

(** ** Estimates *)

Record bbox := mk_bbox { volume : option Q }.

Record estimate := mk_estimate {
  process : string;
  unit_cost : Q;
  total_cost : Q;
  breakdown : list (string * Q);
  lead_time_days : string;
  best_for : string;
  quantity : Z;
  mass_kg : Q;
  extras : list (string * Q)   (* [print_time_hours], [mold_cost_total] *)
}.

(** Lines 93-115 of [_estimate_cnc_cost]: the cost components and the
    unit cost before the volume discount. *)
Record cnc_costs := mk_cnc_costs {
  cnc_material : Q; cnc_labor : Q; cnc_tooling : Q; cnc_overhead : Q;
  cnc_unit : Q
}.

Definition cnc_components (mass volume_cm3 material_price : Q)
    (pp : list (string * Q)) (q : Z) : option cnc_costs :=
  let material_cost := mass * material_price in
  let machining_time_min :=
    qget pp "time_per_cm3" (1#2) * volume_cm3 + qget pp "setup_time" 15 in
  let machining_time_hr := machining_time_min / 60 in
  let labor_rate := qget pp "labor_rate" 16 in
  let labor_cost := machining_time_hr * labor_rate in
  obind (pydiv (qget pp "tooling_base" 50) (inject_Z q)) (fun tooling_cost =>
  let direct_cost := material_cost + labor_cost + tooling_cost in
  let overhead_rate := qget pp "overhead_rate" (1#4) in
  let overhead_cost := direct_cost * overhead_rate in
  Some (mk_cnc_costs material_cost labor_cost tooling_cost overhead_cost
          (direct_cost + overhead_cost))).

(** The [if quantity >= 1000: unit_cost *= 0.70 elif ...] chain. *)
Definition cnc_discount (q : Z) (u : Q) : Q :=
  if (1000 <=? q)%Z then u * (7#10)
  else if (500 <=? q)%Z then u * (4#5)
  else if (100 <=? q)%Z then u * (9#10)
  else u.

Definition estimate_cnc_cost (mass volume_cm3 material_price : Q)
    (pp : list (string * Q)) (q : Z) : option estimate :=
  obind (cnc_components mass volume_cm3 material_price pp q) (fun cc =>
  let unit := cnc_discount q (cnc_unit cc) in
  Some (mk_estimate "cnc_milling" (round2 unit) (round2 (unit * inject_Z q))
          [("material", round2 (cnc_material cc)); ("labor", round2 (cnc_labor cc));
           ("tooling_amortized", round2 (cnc_tooling cc));
           ("overhead", round2 (cnc_overhead cc))]
          "5-7" "Low to medium volume (1-1000 units)" q (round3 mass) [])).

Definition estimate_3d_printing_cost (mass volume_cm3 material_price : Q)
    (pp : list (string * Q)) (q : Z) : option estimate :=
  let support_factor := qget pp "support_factor" (7#5) in
  let material_cost := mass * material_price * support_factor in
  let print_time_min := qget pp "time_per_cm3" 2 * volume_cm3 in
  let print_time_hr := print_time_min / 60 in
  let machine_rate := qget pp "machine_rate" 8 in
  let machine_cost := print_time_hr * machine_rate in
  let direct_cost := material_cost + machine_cost in
  let overhead_rate := qget pp "overhead_rate" (3#20) in
  let overhead_cost := direct_cost * overhead_rate in
  let unit := direct_cost + overhead_cost in
  Some (mk_estimate "3d_printing" (round2 unit) (round2 (unit * inject_Z q))
          [("material", round2 material_cost); ("machine_time", round2 machine_cost);
           ("overhead", round2 overhead_cost)]
          "3-5" "Prototypes and low volume (<100 units)" q (round3 mass)
          [("print_time_hours", round1 print_time_hr)]).

Definition estimate_injection_molding_cost (mass volume_cm3 material_price : Q)
    (pp : list (string * Q)) (q : Z) : option estimate :=
  let material_cost := mass * material_price in
  let cycle_time_sec := qget pp "cycle_time" 30 in
  obind (pydiv 3600 cycle_time_sec) (fun parts_per_hour =>
  let labor_rate := qget pp "labor_rate" 12 in
  obind (pydiv labor_rate parts_per_hour) (fun labor_cost =>
  let mold_cost := qget pp "mold_cost" 5000 in
  obind (pydiv mold_cost (inject_Z q)) (fun mold_cost_per_part =>
  let direct_cost := material_cost + labor_cost + mold_cost_per_part in
  let overhead_rate := qget pp "overhead_rate" (1#5) in
  let overhead_cost := direct_cost * overhead_rate in
  let unit := direct_cost + overhead_cost in
  Some (mk_estimate "injection_molding" (round2 unit) (round2 (unit * inject_Z q))
          [("material", round2 material_cost); ("labor", round2 labor_cost);
           ("mold_amortized", round2 mold_cost_per_part);
           ("overhead", round2 overhead_cost)]
          "14-21 (including tooling)" "High volume (>1000 units)" q (round3 mass)
          [("mold_cost_total", mold_cost)])))).

(** The locals of [estimate_cost]. *)
Definition volume_cm3_of (b : bbox) : Q := odflt 1000 (volume b) / 1000.

Definition mass_kg_of (p : params) (b : bbox) : Q :=
  volume_cm3_of b * odflt (27#10) (densities (material_of p)) / 1000.

Definition material_price_of (p : params) : Q :=
  odflt 5 (material_prices (material_of p)).

Definition process_params_of (p : params) : list (string * Q) :=
  odflt [] (process_rates (process_of p)).

Definition estimate_cost (p : params) (b : bbox) (q : Z) : option estimate :=
  let pr := process_of p in
  let mass := mass_kg_of p b in
  let vol := volume_cm3_of b in
  let price := material_price_of p in
  let pp := process_params_of p in
  if String.eqb pr "cnc_milling" then estimate_cnc_cost mass vol price pp q
  else if String.eqb pr "3d_printing" then estimate_3d_printing_cost mass vol price pp q
  else if String.eqb pr "injection_molding" then
    estimate_injection_molding_cost mass vol price pp q
  else estimate_cnc_cost mass vol price pp q.

(** ** [compare_processes] *)

(** A stable sort by a rational key.  Python's [list.sort] is stable, and
    every stable sort returns the same list, so an insertion sort models it. *)
Section SortBy.
Context {A : Type} (key : A -> Q).

Fixpoint insert_by (x : A) (l : list A) : list A :=
  match l with
  | [] => [x]
  | y :: r => if qltb (key x) (key y) then x :: l else y :: insert_by x r
  end.

Definition sort_by (l : list A) : list A :=
  fold_left (fun acc x => insert_by x acc) l [].

End SortBy.

(** The loop stops at the first estimate that raises. *)
Fixpoint collect {A} (l : list (option A)) : option (list A) :=
  match l with
  | [] => Some []
  | o :: r => obind o (fun x => obind (collect r) (fun xs => Some (x :: xs)))
  end.

Definition processes : list string := ["cnc_milling"; "3d_printing"; "injection_molding"].

Definition compare_processes (p : params) (b : bbox) (q : Z) : option (list estimate) :=
  obind (collect (map (fun s => estimate_cost (with_process p s) b q) processes))
        (fun comparisons => Some (sort_by unit_cost comparisons)).

End Cost.

(** * Helper definitions for stating the properties *)

Module DFMSpec.
Import DFM.

Definition wall_crit := Finding "wall_thickness" (Some "critical").
Definition wall_warn := Finding "wall_thickness" (Some "warning").
Definition wall_sugg := Finding "wall_thickness" None.
Definition spacing_warn := Finding "hole_spacing" (Some "warning").
Definition edge_warn := Finding "edge_distance" (Some "warning").

(** Every unordered pair [(positions[i], positions[j])] with [i < j]. *)
Fixpoint unordered_pairs {A} (l : list A) : list (A * A) :=
  match l with
  | [] => []
  | x :: r => map (fun y => (x, y)) r ++ unordered_pairs r
  end.

(** Number of unordered pairs of holes closer than [ms]. *)
Definition close_pairs (ms : Q) (ps : list (Q * Q)) : nat :=
  List.length (filter (fun pr => sqrt_lt (dist2 (fst pr) (snd pr)) ms)
                      (unordered_pairs ps)).

(** "within [me] of 0 or of [lim]" *)
Definition near_edge (c me lim : Q) : bool := qltb c me || qltb (lim - c) me.

Definition edge_count (me bl bw : Q) (pos : Q * Q) : nat :=
  (if near_edge (fst pos) me bl then 1 else 0) +
  (if near_edge (snd pos) me bw then 1 else 0).

End DFMSpec.

Module CostSpec.
Import Cost.

(** The discount multiplier, tier by tier as the documentation lists it. *)
Definition volume_discount (q : Z) : Q :=
  if (1000 <=? q)%Z then 7#10
  else if (500 <=? q)%Z then 4#5
  else if (100 <=? q)%Z then 9#10
  else 1.

Definition key_le {A} (key : A -> Q) (a b : A) : Prop := key a <= key b.

(** Does the element's key equal [k]? *)
Definition key_is {A} (key : A -> Q) (k : Q) (e : A) : bool := Qeq_bool (key e) k.

End CostSpec.

(** * Python string helpers used by the component library and the parser

    Strings are byte strings.  [str.lower] and [str.upper] are modelled on
    ASCII letters; every other byte is left unchanged.  This is what Python
    does on ASCII text, so the statements that quantify over user strings
    carry an [is_ascii] hypothesis. *)

Module PyStr.

Definition lower_char (c : ascii) : ascii :=
  if (Ascii.leb "A" c && Ascii.leb c "Z")%char
  then ascii_of_nat (nat_of_ascii c + 32) else c.

Definition upper_char (c : ascii) : ascii :=
  if (Ascii.leb "a" c && Ascii.leb c "z")%char
  then ascii_of_nat (nat_of_ascii c - 32) else c.

(** [s.lower()] *)
Fixpoint lower (s : string) : string :=
  match s with
  | EmptyString => EmptyString
  | String c s' => String (lower_char c) (lower s')
  end.

(** [s.upper()] *)
Fixpoint upper (s : string) : string :=
  match s with
  | EmptyString => EmptyString
  | String c s' => String (upper_char c) (upper s')
  end.

Fixpoint is_ascii (s : string) : bool :=
  match s with
  | EmptyString => true
  | String c s' => Nat.ltb (nat_of_ascii c) 128 && is_ascii s'
  end.

(** [needle in hay] *)
Fixpoint contains (needle hay : string) : bool :=
  if String.prefix needle hay then true
  else match hay with
       | EmptyString => false
       | String _ hay' => contains needle hay'
       end.

(** [c.isspace()] on an ASCII character: [\t \n \x0b \x0c \r], the
    separators [\x1c]-[\x1f] and the space. *)
Definition is_space (c : ascii) : bool :=
  let n := nat_of_ascii c in
  (Nat.leb 9 n && Nat.leb n 13) || (Nat.leb 28 n && Nat.leb n 32).

Fixpoint lstrip (s : string) : string :=
  match s with
  | EmptyString => EmptyString
  | String c s' => if is_space c then lstrip s' else s
  end.

Fixpoint rstrip (s : string) : string :=
  match s with
  | EmptyString => EmptyString
  | String c s' =>
      let r := rstrip s' in
      if String.eqb r "" && is_space c then EmptyString else String c r
  end.

(** [s.strip()] *)
Definition strip (s : string) : string := lstrip (rstrip s).

Fixpoint drop (n : nat) (s : string) : string :=
  match n, s with
  | O, _ => s
  | S n', String _ s' => drop n' s'
  | S _, EmptyString => EmptyString
  end.

(** The first occurrence of a non-empty [sep] in [s]: the text before it
    and the text after it. *)
Fixpoint find_sep (sep s : string) : option (string * string) :=
  if String.prefix sep s then Some (EmptyString, drop (String.length sep) s)
  else match s with
       | EmptyString => None
       | String c s' =>
           match find_sep sep s' with
           | Some (b, a) => Some (String c b, a)
           | None => None
           end
       end.

(** [s.split(sep)[0]] *)
Definition split0 (sep s : string) : string :=
  match find_sep sep s with Some (b, _) => b | None => s end.

(** [s.split(sep)[1]]; [None] is the [IndexError] of a missing separator. *)
Definition split1 (sep s : string) : option string :=
  match find_sep sep s with Some (_, a) => Some (split0 sep a) | None => None end.

End PyStr.

(** * [src/backend/component_library.py] *)

Module Components.
Import PyStr.

Inductive value := VInt (z : Z) | VFloat (q : Q) | VStr (s : string).

(** A component dict: its ['name'] and the other keys in order. *)
Record component := mk_component { name : string; attrs : list (string * value) }.

Definition nema (n : string) (size fw hs : value) (bolt : string) (hd sd : value)
    (len : Z) : component :=
  mk_component n [("size", size); ("face_width", fw); ("face_height", fw);
                  ("hole_spacing", hs); ("bolt_size", VStr bolt);
                  ("hole_diameter", hd); ("shaft_diameter", sd);
                  ("typical_length", VInt len)].

Definition bolt (n : string) (d ch cf tp : Q) : component :=
  mk_component n [("diameter", VFloat d); ("clearance_hole", VFloat ch);
                  ("close_fit", VFloat cf); ("thread_pitch", VFloat tp)].

Definition bearing (n : string) (i o w l : Z) : component :=
  mk_component n [("type", VStr "deep_groove"); ("inner_diameter", VInt i);
                  ("outer_diameter", VInt o); ("width", VInt w);
                  ("load_rating", VInt l)].

(** [ComponentLibrary._load_components] *)
Definition components : list (string * list component) :=
  [("nema_motors",
    [nema "NEMA11" (VInt 11) (VInt 28) (VInt 23) "M2.5" (VFloat (27#10)) (VInt 5) 30;
     nema "NEMA14" (VInt 14) (VFloat (176#5)) (VInt 26) "M3" (VFloat (16#5)) (VInt 5) 36;
     nema "NEMA17" (VInt 17) (VFloat (423#10)) (VInt 31) "M3" (VFloat (16#5)) (VInt 5) 47;
     nema "NEMA23" (VInt 23) (VFloat (282#5)) (VFloat (2357#50)) "M4" (VFloat (9#2))
          (VFloat (127#20)) 76;
     nema "NEMA34" (VInt 34) (VInt 86) (VFloat (348#5)) "M6" (VFloat (33#5)) (VInt 14) 98]);
   ("metric_bolts",
    [bolt "M3" 3 (16#5) (31#10) (1#2);
     bolt "M4" 4 (9#2) (21#5) (7#10);
     bolt "M5" 5 (11#2) (26#5) (4#5);
     bolt "M6" 6 (33#5) (31#5) 1;
     bolt "M8" 8 9 (42#5) (5#4);
     bolt "M10" 10 11 (21#2) (3#2);
     bolt "M12" 12 (27#2) (63#5) (7#4)]);
   ("bearings",
    [bearing "608" 8 22 7 3600;
     bearing "6000" 10 26 8 4500;
     bearing "6001" 12 28 8 5000;
     bearing "6002" 15 32 9 5600;
     bearing "6003" 17 35 10 6200;
     bearing "6004" 20 42 12 9500;
     bearing "6005" 25 47 12 10200;
     bearing "6006" 30 55 13 11800]);
   ("connectors",
    [mk_component "USB-A" [("width", VInt 12); ("height", VFloat (9#2));
                           ("depth", VInt 14); ("type", VStr "usb")];
     mk_component "USB-C" [("width", VFloat (42#5)); ("height", VFloat (13#5));
                           ("depth", VFloat (73#10)); ("type", VStr "usb")];
     mk_component "USB-Micro" [("width", VFloat (137#20)); ("height", VFloat (9#5));
                               ("depth", VFloat (15#2)); ("type", VStr "usb")];
     mk_component "DB9" [("width", VFloat (154#5)); ("height", VFloat (25#2));
                         ("pins", VInt 9); ("type", VStr "d_sub")];
     mk_component "DB25" [("width", VFloat (239#5)); ("height", VFloat (25#2));
                          ("pins", VInt 25); ("type", VStr "d_sub")]])].

(** [cat in self.components] / [self.components[cat]] *)
Fixpoint lookup (k : string) (d : list (string * list component)) : option (list component) :=
  match d with
  | [] => None
  | (k', v) :: r => if String.eqb k k' then Some v else lookup k r
  end.

(** [ComponentLibrary.search]; [category] is [None] or a string, and the
    empty string is falsy, so it searches every category as [None] does.
    A hit is the dict [{'category': cat, **component}]. *)
Definition search (query : string) (category : option string) : list (string * component) :=
  let query_lower := lower query in
  let categories_to_search :=
    match category with
    | Some c => if String.eqb c "" then map fst components else [c]
    | None => map fst components
    end in
  flat_map (fun cat =>
    match lookup cat components with
    | Some comps =>
        map (fun c => (cat, c)) (filter (fun c => contains query_lower (lower (name c))) comps)
    | None => []
    end) categories_to_search.

(** [ComponentLibrary.get_component] *)
Definition get_component (category n : string) : option component :=
  match lookup category components with
  | Some comps => find (fun c => String.eqb (upper (name c)) (upper n)) comps
  | None => None
  end.

(** [ComponentLibrary.get_all_categories] *)
Definition get_all_categories : list string := map fst components.

(** [ComponentLibrary.get_category] *)
Definition get_category (category : string) : list component :=
  odflt [] (lookup category components).

End Components.

(** * [src/backend/llm_parser.py]: the fallback parameters and the
      extraction of the JSON text from the model's reply *)

Module Parser.
Import PyStr.

(** The dict of [_get_default_params]: the keys [validate] and
    [estimate_cost] read are in [core]; the others are kept beside it. *)
Record parsed := mk_parsed {
  part_type : string;                         (* primary_geometry['type'] *)
  height : Q;                                 (* primary_geometry['height'] *)
  geometry_unit : string;                     (* primary_geometry['unit'] *)
  tolerances : list (string * string);
  core : params
}.

(** [NLPtoCADParser._get_default_params] *)
Definition default_params (description : string) : parsed :=
  let desc_lower := lower description in
  let part_type :=
    if contains "bracket" desc_lower then "bracket"
    else if contains "cylinder" desc_lower || contains "tube" desc_lower then "cylinder"
    else if contains "gear" desc_lower then "gear"
    else "box" in
  mk_parsed part_type 50 "mm"
    [("dimensional", "±0.1mm"); ("hole_position", "±0.1mm")]
    (mk_params (Some "aluminum_6061_t6") (Some "cnc_milling")
       (Some (mk_geometry (Some (5#2)) (Some 100) (Some 80))) None).

(** Lines 80-87 of [NLPtoCADParser.parse]: the text handed to
    [json.loads]; [None] is an [IndexError]. *)
Definition extract_json (response : string) : option string :=
  let response_text := strip response in
  if contains "```json" response_text then
    match split1 "```json" response_text with
    | Some a => Some (strip (split0 "```" a))
    | None => None
    end
  else if contains "```" response_text then
    match split1 "```" response_text with
    | Some a => Some (strip (split0 "```" a))
    | None => None
    end
  else Some response_text.

End Parser.

(** * [src/backend/server.py]: error handling of two endpoints

    An endpoint either returns its body ([inl]) or lets an exception out
    ([inr]); FastAPI answers an escaping [HTTPException] with its status
    code.  [StrOf e] is the detail [str(e)]. *)

Module Api.
Import Cost Components.

Inductive exc :=
  | HTTPException (status_code : Z) (d : detail)
  | ZeroDivisionError
  | AttributeError
with detail :=
  | Msg (s : string)
  | StrOf (e : exc).

(** [except Exception as e: raise HTTPException(status_code=500, detail=str(e))] *)
Definition except_500 {A} (r : A + exc) : A + exc :=
  match r with
  | inl x => inl x
  | inr e => inr (HTTPException 500 (StrOf e))
  end.

Definition status {A} (r : A + exc) : Z :=
  match r with
  | inl _ => 200
  | inr (HTTPException c _) => c
  | inr _ => 500
  end.

Record category_body := mk_category_body {
  body_category : string; body_components : list component; body_count : nat
}.

(** [get_category_components] *)
Definition get_category_components (category : string) : category_body + exc :=
  except_500
    (match get_category category with
     | [] => inr (HTTPException 404 (Msg ("Category not found: " ++ category)))
     | comps => inl (mk_category_body category comps (List.length comps))
     end).

(** A stored design: its ['parameters'] and its ['bounding_box'] ([None]
    when it is [null]). *)
Record design := mk_design { parameters : params; bounding_box : option bbox }.

Record cost_body := mk_cost_body {
  current_process : estimate; process_comparison : list estimate; body_quantity : Z
}.

(** [estimate_cost] of the API; [found] is the result of [find_one]. *)
Definition estimate_cost_endpoint (found : option design) (quantity : Z) : cost_body + exc :=
  except_500
    (match found with
     | None => inr (HTTPException 404 (Msg "Design not found"))
     | Some d =>
         match bounding_box d with
         | None => inr AttributeError         (* [None.get('volume', 1000)] *)
         | Some b =>
             match Cost.estimate_cost (parameters d) b quantity with
             | None => inr ZeroDivisionError
             | Some cost_result =>
                 match compare_processes (parameters d) b quantity with
                 | None => inr ZeroDivisionError
                 | Some cost_comparison =>
                     inl (mk_cost_body cost_result cost_comparison quantity)
                 end
             end
         end
     end).

End Api.

(** * Properties *)

(** ** General facts about the Python helpers *)

Lemma qltb_spec (x y : Q) : qltb x y = true <-> x < y.
Proof.
  unfold qltb. rewrite negb_true_iff, <- not_true_iff_false, Qle_bool_iff.
  split; [apply Qnot_le_lt | intros H H'; apply (Qlt_not_le _ _ H H')].
Qed.

Lemma qltb_false (x y : Q) : qltb x y = false <-> y <= x.
Proof.
  rewrite <- not_true_iff_false, qltb_spec.
  split; [apply Qnot_lt_le | intros H H'; apply (Qle_not_lt _ _ H H')].
Qed.

Lemma filter_nil_of {A} (f : A -> bool) (l : list A) :
  (forall x, In x l -> f x = false) -> filter f l = [].
Proof.
  induction l as [|a l IH]; intros H; simpl; [reflexivity|].
  rewrite (H a (or_introl eq_refl)). apply IH. intros x Hx. apply H. now right.
Qed.

Lemma filter_all_of {A} (f : A -> bool) (l : list A) :
  (forall x, In x l -> f x = true) -> filter f l = l.
Proof.
  induction l as [|a l IH]; intros H; simpl; [reflexivity|].
  rewrite (H a (or_introl eq_refl)), IH; [reflexivity|].
  intros x Hx. apply H. now right.
Qed.

Module DFMFacts.
Import DFM DFMSpec.

Lemma in_spacing_warnings ms ps f :
  In f (spacing_warnings ms ps) -> f = spacing_warn.
Proof.
  induction ps as [|p1 rest IH]; simpl; [tauto|].
  rewrite in_app_iff, in_flat_map. intros [[p2 [_ Hf]] | Hf]; [|auto].
  destruct (sqrt_lt _ _); simpl in Hf; intuition.
Qed.

Lemma in_edge_warnings me bl bw ps f :
  In f (edge_warnings me bl bw ps) -> f = edge_warn.
Proof.
  unfold edge_warnings. rewrite in_flat_map. intros [[x y] [_ Hf]].
  unfold edge_warnings_one in Hf. rewrite in_app_iff in Hf.
  destruct (_ || _), (_ || _); simpl in Hf; intuition.
Qed.

Lemma hole_check_findings r g hp f :
  (In f (fst (hole_check r g hp)) -> f = Finding "hole_diameter" (Some "critical")) /\
  (In f (snd (hole_check r g hp)) -> f = spacing_warn \/ f = edge_warn).
Proof.
  unfold hole_check; simpl. split.
  - destruct (qltb _ _); simpl; intuition.
  - rewrite in_app_iff. intros [H|H].
    + left. eapply in_spacing_warnings; eauto.
    + right. eapply in_edge_warnings; eauto.
Qed.

(** The hole block never reports a wall-thickness finding. *)
Lemma hole_block_no_wall p r :
  let hb := match mounting_pattern p with
            | Some hp => hole_check r (odflt empty_geometry (primary_geometry p)) hp
            | None => ([], []) end in
  filter (is_type "wall_thickness") (fst hb) = [] /\
  filter (is_type "wall_thickness") (snd hb) = [].
Proof.
  simpl. destruct (mounting_pattern p) as [hp|]; [|split; reflexivity].
  split; apply filter_nil_of; intros f Hf.
  - apply (proj1 (hole_check_findings r _ hp f)) in Hf. now subst.
  - apply (proj2 (hole_check_findings r _ hp f)) in Hf. now destruct Hf; subst.
Qed.

End DFMFacts.

Module DFMClaims.
Import DFM DFMSpec DFMFacts.

Local Abbreviation wc_of p r :=
  (wall_check (odflt 2 (wall_thickness (odflt empty_geometry (primary_geometry p))))
     (odflt 1 (min_wall_thickness r)) (odflt 10 (max_wall_thickness r))
     (odflt (2, 3) (recommended_wall_thickness r))).
Local Abbreviation hb_of p r :=
  (match mounting_pattern p with
   | Some hp => hole_check r (odflt empty_geometry (primary_geometry p)) hp
   | None => ([], []) end).

(** The shape of a result on the path where a rule set exists. *)
Lemma validate_rule_path p r :
  rules (material_of p) (process_of p) = Some r ->
  validate p =
  mk_result (Nat.eqb (List.length (fst (fst (wc_of p r)) ++ fst (hb_of p r))) 0)
    (fst (fst (wc_of p r)) ++ fst (hb_of p r)) (snd (fst (wc_of p r)) ++ snd (hb_of p r))
    (snd (wc_of p r))
    (score (List.length (fst (fst (wc_of p r)) ++ fst (hb_of p r)))
           (List.length (snd (fst (wc_of p r)) ++ snd (hb_of p r))))
    (Some (py_int (score (List.length (fst (fst (wc_of p r)) ++ fst (hb_of p r)))
                         (List.length (snd (fst (wc_of p r)) ++ snd (hb_of p r))) * 100))).
Proof.
  intros Hr. unfold validate. rewrite Hr. cbv zeta.
  destruct (wall_check _ _ _ _) as [[wi ww] ws].
  destruct (mounting_pattern p) as [hp|]; [destruct (hole_check _ _ hp)|]; reflexivity.
Qed.

Lemma score_bounds ni nw : 0 <= score ni nw <= 1.
Proof.
  unfold score. split.
  - apply Q.le_max_l.
  - apply Q.max_lub; [discriminate|apply Q.le_min_l].
Qed.

Lemma py_int_bounds (x : Q) : 0 <= x <= 100 -> (0 <= py_int x <= 100)%Z.
Proof.
  destruct x as [n d]. unfold Qle, py_int; simpl. intros [H0 H1].
  rewrite Z.mul_1_r in H0. rewrite Z.mul_1_r in H1.
  rewrite Z.quot_div_nonneg by lia. split.
  - apply Z.div_pos; lia.
  - apply Z.div_le_upper_bound; lia.
Qed.

(** On every path that finds a rule set, [confidence] lies in [0,1] and
    [dfm_score] is present and lies in [0,100]. *)
Lemma validate_rule_path_score p r :
  rules (material_of p) (process_of p) = Some r ->
  (0 <= confidence (validate p) <= 1) /\
  exists s, dfm_score (validate p) = Some s /\ (0 <= s <= 100)%Z.
Proof.
  intros Hr. rewrite (validate_rule_path p r Hr); simpl.
  match goal with |- context [score ?a ?b] => pose proof (score_bounds a b) as Hs end.
  split; [exact Hs|]. eexists; split; [reflexivity|].
  apply py_int_bounds. destruct Hs. split; lra.
Qed.

(** C1 (the no-rules return path): for [material = 'titanium'] no rule set
    exists and the returned dict has no [dfm_score] key, while its
    [confidence] is 0.5. *)
Theorem validate_no_rules_omits_dfm_score :
  let res := validate (mk_params (Some "titanium") None None None) in
  dfm_score res = None /\ confidence res = 1#2.
Proof. split; reflexivity. Qed.

(** C4: when the (material, process) pair has no rule set, [validate]
    returns at once: valid, no issues, no suggestions, exactly one warning
    (the "no rules found" message) and confidence 0.5. *)
Theorem validate_unknown_rules p :
  rules (material_of p) (process_of p) = None ->
  valid (validate p) = true /\ issues (validate p) = [] /\
  suggestions (validate p) = [] /\
  warnings (validate p) = [Note "No DFM rules found"] /\
  confidence (validate p) = 1#2.
Proof. intros H. unfold validate. rewrite H. repeat split. Qed.

Lemma validate_unknown_rules_witness :
  rules (material_of (mk_params (Some "titanium") None None None))
        (process_of (mk_params (Some "titanium") None None None)) = None /\
  valid (validate (mk_params (Some "titanium") None None None)) = true /\
  issues (validate (mk_params (Some "titanium") None None None)) = [] /\
  suggestions (validate (mk_params (Some "titanium") None None None)) = [] /\
  warnings (validate (mk_params (Some "titanium") None None None)) =
    [Note "No DFM rules found"] /\
  confidence (validate (mk_params (Some "titanium") None None None)) = 1#2.
Proof.
  split; [reflexivity|].
  apply (validate_unknown_rules (mk_params (Some "titanium") None None None)).
  reflexivity.
Defined.

Lemma wall_check_cases wt mn mx rc :
  let wc := wall_check wt mn mx rc in
  (wt < mn -> wc = ([wall_crit], [], [])) /\
  (mn <= wt -> mx < wt -> wc = ([], [wall_warn], [])) /\
  (mn <= wt -> wt <= mx -> (wt < fst rc \/ snd rc < wt) -> wc = ([], [], [wall_sugg])) /\
  (mn <= wt -> wt <= mx -> fst rc <= wt -> wt <= snd rc -> wc = ([], [], [])).
Proof.
  unfold wall_check.
  destruct (qltb wt mn) eqn:E1; [apply qltb_spec in E1|apply qltb_false in E1];
  destruct (qltb mx wt) eqn:E2; [apply qltb_spec in E2|apply qltb_false in E2|
                                 apply qltb_spec in E2|apply qltb_false in E2];
  destruct (qltb wt (fst rc)) eqn:E3;
    try apply qltb_spec in E3; try apply qltb_false in E3;
  destruct (qltb (snd rc) wt) eqn:E4;
    try apply qltb_spec in E4; try apply qltb_false in E4;
  simpl; repeat split; intros; try reflexivity;
  try lra; intuition lra.
Qed.

(** C3: the wall-thickness checks form one if / elif / elif chain.  Below
    the minimum: exactly one critical wall-thickness issue and [valid] is
    false; else above the maximum: exactly one warning; else outside the
    recommended band: exactly one suggestion; in every case at most one
    wall-thickness finding is produced. *)
Theorem validate_wall_thickness_branches (p : params) (r : rule)
  (Hr : rules (material_of p) (process_of p) = Some r) :
  let g := odflt empty_geometry (primary_geometry p) in
  let wt := odflt 2 (wall_thickness g) in
  let min_wall := odflt 1 (min_wall_thickness r) in
  let max_wall := odflt 10 (max_wall_thickness r) in
  let rec := odflt (2, 3) (recommended_wall_thickness r) in
  let res := validate p in
  let wi := filter (is_type "wall_thickness") (issues res) in
  let ww := filter (is_type "wall_thickness") (warnings res) in
  let ws := filter (is_type "wall_thickness") (suggestions res) in
  (wt < min_wall -> wi = [wall_crit] /\ ww = [] /\ ws = [] /\ valid res = false) /\
  (min_wall <= wt -> max_wall < wt -> wi = [] /\ ww = [wall_warn] /\ ws = []) /\
  (min_wall <= wt -> wt <= max_wall -> (wt < fst rec \/ snd rec < wt) ->
     wi = [] /\ ww = [] /\ ws = [wall_sugg]) /\
  (min_wall <= wt -> wt <= max_wall -> fst rec <= wt -> wt <= snd rec ->
     wi = [] /\ ww = [] /\ ws = []) /\
  (List.length wi + List.length ww + List.length ws <= 1)%nat.
Proof.
  intros g wt min_wall max_wall rec res wi ww ws.
  pose proof (hole_block_no_wall p r) as [Hh1 Hh2]; simpl in Hh1, Hh2.
  assert (Ewi : wi = filter (is_type "wall_thickness")
                    (fst (fst (wall_check wt min_wall max_wall rec)))).
  { unfold wi, res. rewrite (validate_rule_path p r Hr); simpl.
    rewrite filter_app. rewrite Hh1, app_nil_r. reflexivity. }
  assert (Eww : ww = filter (is_type "wall_thickness")
                    (snd (fst (wall_check wt min_wall max_wall rec)))).
  { unfold ww, res. rewrite (validate_rule_path p r Hr); simpl.
    rewrite filter_app. rewrite Hh2, app_nil_r. reflexivity. }
  assert (Ews : ws = filter (is_type "wall_thickness")
                    (snd (wall_check wt min_wall max_wall rec))).
  { unfold ws, res. rewrite (validate_rule_path p r Hr). reflexivity. }
  assert (Ev : valid res = Nat.eqb (List.length (issues res)) 0) by
    (unfold res; rewrite (validate_rule_path p r Hr); reflexivity).
  assert (Ei : issues res = fst (fst (wall_check wt min_wall max_wall rec)) ++
               fst (match mounting_pattern p with
                    | Some hp => hole_check r g hp | None => ([], []) end)) by
    (unfold res; rewrite (validate_rule_path p r Hr); reflexivity).
  rewrite Ev, Ei, Ewi, Eww, Ews. clear Ev Ei Ewi Eww Ews.
  destruct (wall_check_cases wt min_wall max_wall rec) as (C1 & C2 & C3 & C4).
  repeat split; intros.
  all: try (rewrite C1 by assumption; reflexivity).
  all: try (rewrite C2 by assumption; reflexivity).
  all: try (rewrite C3 by assumption; reflexivity).
  all: try (rewrite C4 by assumption; reflexivity).
  destruct (Qlt_le_dec wt min_wall) as [H1|H1]; [rewrite C1 by assumption; simpl; lia|].
  destruct (Qlt_le_dec max_wall wt) as [H2|H2]; [rewrite C2 by assumption; simpl; lia|].
  destruct (Qlt_le_dec wt (fst rec)) as [H3|H3];
    [rewrite C3 by (auto || lra); simpl; lia|].
  destruct (Qlt_le_dec (snd rec) wt) as [H4|H4];
    [rewrite C3 by (auto || lra); simpl; lia|].
  rewrite C4 by assumption. simpl. lia.
Qed.

Lemma validate_wall_thickness_branches_witness :
  let p := mk_params None None (Some (mk_geometry (Some 1) None None)) None in
  rules (material_of p) (process_of p) = Some (mk_rule (Some (3#2)) (Some (2, 3))
    (Some 8) (Some 3) (Some 5) (Some 3)) /\
  filter (is_type "wall_thickness") (issues (validate p)) = [wall_crit] /\
  valid (validate p) = false.
Proof.
  intros p. split; [reflexivity|].
  destruct (validate_wall_thickness_branches p _ eq_refl) as [H _].
  destruct H as (H1 & _ & _ & H4); [reflexivity|]. split; assumption.
Defined.

Lemma validate_warnings_holes p r hp :
  rules (material_of p) (process_of p) = Some r ->
  mounting_pattern p = Some hp ->
  let g := odflt empty_geometry (primary_geometry p) in
  let d := odflt (9#2) (hole_diameter hp) in
  let ps := odflt [] (positions hp) in
  warnings (validate p) =
    snd (fst (wall_check (odflt 2 (wall_thickness g)) (odflt 1 (min_wall_thickness r))
           (odflt 10 (max_wall_thickness r)) (odflt (2, 3) (recommended_wall_thickness r))))
    ++ (spacing_warnings (odflt 5 (min_hole_spacing r)) ps
        ++ edge_warnings (odflt 3 (min_edge_distance r) * d)
             (odflt 100 (base_length g)) (odflt 80 (base_width g)) ps).
Proof.
  intros Hr Hm. rewrite (validate_rule_path p r Hr). simpl. rewrite Hm. reflexivity.
Qed.

Lemma wall_warnings_are_wall wt mn mx rc f :
  In f (snd (fst (wall_check wt mn mx rc))) -> f = wall_warn.
Proof.
  unfold wall_check.
  destruct (qltb wt mn), (qltb mx wt), (qltb wt (fst rc) || qltb (snd rc) wt); simpl; intuition.
Qed.

Lemma length_spacing_warnings ms ps :
  List.length (spacing_warnings ms ps) = close_pairs ms ps.
Proof.
  unfold close_pairs. induction ps as [|p1 rest IH]; [reflexivity|].
  simpl. rewrite filter_app, !length_app, IH. f_equal.
  clear IH. induction rest as [|p2 rest IH']; [reflexivity|].
  simpl. destruct (sqrt_lt _ _); simpl; rewrite IH'; reflexivity.
Qed.

Lemma length_filter_split {A} (f : A -> bool) (l : list A) :
  List.length l = (List.length (filter f l) + List.length (filter (fun x => negb (f x)) l))%nat.
Proof.
  induction l as [|a l IH]; [reflexivity|]. simpl.
  destruct (f a); simpl; rewrite IH; lia.
Qed.

Lemma score_eq ni nw :
  score ni nw == Qmax 0 (1 - inject_Z (Z.of_nat ni) * (1#5)
                           - inject_Z (Z.of_nat nw) * (1#10)).
Proof.
  assert (Hi : 0 <= inject_Z (Z.of_nat ni)) by
    (unfold Qle; simpl; lia).
  assert (Hw : 0 <= inject_Z (Z.of_nat nw)) by
    (unfold Qle; simpl; lia).
  unfold score. apply Q.max_compat; [reflexivity|].
  destruct (Nat.eqb ni 0) eqn:Ei, (Nat.eqb nw 0) eqn:Ew;
    try apply Nat.eqb_eq in Ei; try apply Nat.eqb_eq in Ew; subst;
    change (inject_Z (Z.of_nat 0)) with 0 in *;
    (rewrite Q.min_r; [|lra]); lra.
Qed.

(** C5: every unordered pair of holes closer than [min_hole_spacing] gives
    exactly one spacing warning (all pairs checked, none merged), and each
    of these warnings lowers the confidence by 0.1, clamped at 0. *)
Theorem validate_hole_spacing p r hp
  (Hr : rules (material_of p) (process_of p) = Some r)
  (Hm : mounting_pattern p = Some hp) :
  let ms := odflt 5 (min_hole_spacing r) in
  let ps := odflt [] (positions hp) in
  let res := validate p in
  List.length (filter (is_type "hole_spacing") (warnings res)) = close_pairs ms ps /\
  confidence res ==
    Qmax 0 (1 - inject_Z (Z.of_nat (List.length (issues res))) * (1#5)
              - inject_Z (Z.of_nat (List.length
                  (filter (fun f => negb (is_type "hole_spacing" f)) (warnings res)))) * (1#10)
              - inject_Z (Z.of_nat (close_pairs ms ps)) * (1#10)).
Proof.
  intros ms ps res.
  assert (Hs : List.length (filter (is_type "hole_spacing") (warnings res)) = close_pairs ms ps).
  { unfold res. rewrite (validate_warnings_holes p r hp Hr Hm), !filter_app.
    rewrite (filter_nil_of _ (snd (fst _))), (filter_all_of _ (spacing_warnings _ _)),
            (filter_nil_of _ (edge_warnings _ _ _ _)).
    - rewrite app_nil_r. apply length_spacing_warnings.
    - intros f Hf. apply in_edge_warnings in Hf. now subst.
    - intros f Hf. apply in_spacing_warnings in Hf. now subst.
    - intros f Hf. apply wall_warnings_are_wall in Hf. now subst. }
  split; [exact Hs|].
  assert (Hc : confidence res = score (List.length (issues res)) (List.length (warnings res)))
    by (unfold res; rewrite (validate_rule_path p r Hr); reflexivity).
  rewrite Hc, score_eq. apply Q.max_compat; [reflexivity|].
  rewrite (length_filter_split (is_type "hole_spacing") (warnings res)), Hs.
  rewrite Nat2Z.inj_add, inject_Z_plus. ring.
Qed.

Lemma validate_hole_spacing_witness :
  let p := mk_params None None None
             (Some (mk_mounting None (Some [(10,10); (12,10); (50,40); (13,10)]))) in
  List.length (filter (is_type "hole_spacing") (warnings (validate p))) = 3%nat.
Proof.
  intros p.
  destruct (validate_hole_spacing p (mk_rule (Some (3#2)) (Some (2, 3)) (Some 8)
              (Some 3) (Some 5) (Some 3)) (mk_mounting None
              (Some [(10,10); (12,10); (50,40); (13,10)])) eq_refl eq_refl) as [H _].
  rewrite H. vm_compute. reflexivity.
Defined.

Lemma edge_warnings_one_count me bl bw pos :
  edge_warnings_one me bl bw pos = repeat edge_warn (edge_count me bl bw pos).
Proof.
  destruct pos as [x y]. unfold edge_warnings_one, edge_count, near_edge; simpl.
  assert (E : forall c lim, qltb (lim - me) c = qltb (lim - c) me).
  { intros c lim. destruct (qltb (lim - me) c) eqn:E1, (qltb (lim - c) me) eqn:E2;
      try reflexivity;
      try apply qltb_spec in E1; try apply qltb_false in E1;
      try apply qltb_spec in E2; try apply qltb_false in E2; lra. }
  rewrite !E.
  destruct (qltb x me || qltb (bl - x) me), (qltb y me || qltb (bw - y) me); reflexivity.
Qed.

(** C6: the edge clearance is the rule's multiplier times the hole diameter;
    each hole gets one warning when its x lies within that clearance of 0 or
    of [base_length], and independently one when its y lies within it of 0
    or of [base_width]: at most two edge-distance warnings per hole. *)
Theorem validate_edge_distance p r hp
  (Hr : rules (material_of p) (process_of p) = Some r)
  (Hm : mounting_pattern p = Some hp) :
  let g := odflt empty_geometry (primary_geometry p) in
  let d := odflt (9#2) (hole_diameter hp) in
  let ps := odflt [] (positions hp) in
  let me := odflt 3 (min_edge_distance r) * d in
  let bl := odflt 100 (base_length g) in
  let bw := odflt 80 (base_width g) in
  filter (is_type "edge_distance") (warnings (validate p)) =
    flat_map (fun pos => repeat edge_warn (edge_count me bl bw pos)) ps /\
  Forall (fun pos => (edge_count me bl bw pos <= 2)%nat) ps.
Proof.
  intros g d ps me bl bw. split.
  - rewrite (validate_warnings_holes p r hp Hr Hm), !filter_app.
    rewrite (filter_nil_of _ (snd (fst _))), (filter_nil_of _ (spacing_warnings _ _)),
            (filter_all_of _ (edge_warnings _ _ _ _)).
    + simpl. unfold edge_warnings. apply flat_map_ext. apply edge_warnings_one_count.
    + intros f Hf. apply in_edge_warnings in Hf. now subst.
    + intros f Hf. apply in_spacing_warnings in Hf. now subst.
    + intros f Hf. apply wall_warnings_are_wall in Hf. now subst.
  - apply Forall_forall. intros pos _. unfold edge_count.
    destruct (near_edge _ _ _), (near_edge _ _ _); simpl; lia.
Qed.

Lemma validate_edge_distance_witness :
  let p := mk_params None None None (Some (mk_mounting None (Some [(5, 5)]))) in
  List.length (filter (is_type "edge_distance") (warnings (validate p))) = 2%nat.
Proof.
  intros p.
  destruct (validate_edge_distance p (mk_rule (Some (3#2)) (Some (2, 3)) (Some 8)
              (Some 3) (Some 5) (Some 3)) (mk_mounting None (Some [(5, 5)]))
              eq_refl eq_refl) as [H _].
  rewrite H. vm_compute. reflexivity.
Defined.

End DFMClaims.

Module CostClaims.
Import Cost CostSpec.

(** ** Rounding and division *)

Lemma qltb_compat x x' y y' : x == x' -> y == y' -> qltb x y = qltb x' y'.
Proof.
  intros Hx Hy.
  destruct (qltb x y) eqn:E1, (qltb x' y') eqn:E2; try reflexivity;
    try apply qltb_spec in E1; try apply qltb_false in E1;
    try apply qltb_spec in E2; try apply qltb_false in E2; lra.
Qed.

Lemma Qfloor_compat x y : x == y -> Qfloor x = Qfloor y.
Proof.
  intros H. apply Z.le_antisymm; apply Qfloor_resp_le; lra.
Qed.

Lemma pyround_compat s x y : x == y -> pyround s x = pyround s y.
Proof.
  intros H. unfold pyround, round_half_even.
  assert (Hm : x * inject_Z (Zpos s) == y * inject_Z (Zpos s))
    by (apply Qmult_comp; [exact H|reflexivity]).
  rewrite (Qfloor_compat _ _ Hm).
  rewrite (qltb_compat (x * inject_Z (Zpos s) - inject_Z (Qfloor (y * inject_Z (Zpos s))))
             (y * inject_Z (Zpos s) - inject_Z (Qfloor (y * inject_Z (Zpos s)))) (1#2) (1#2))
    by first [reflexivity | (unfold Qminus; apply Qplus_comp; [exact Hm|reflexivity])].
  rewrite (qltb_compat (1#2) (1#2)
             (x * inject_Z (Zpos s) - inject_Z (Qfloor (y * inject_Z (Zpos s))))
             (y * inject_Z (Zpos s) - inject_Z (Qfloor (y * inject_Z (Zpos s)))))
    by first [reflexivity | (unfold Qminus; apply Qplus_comp; [exact Hm|reflexivity])].
  reflexivity.
Qed.

Lemma pydiv_none a b : pydiv a b = None <-> b == 0.
Proof.
  unfold pydiv. destruct (Qeq_bool b 0) eqn:E.
  - apply Qeq_bool_iff in E. split; auto.
  - split; [discriminate|]. intros H. apply Qeq_bool_iff in H. congruence.
Qed.

Lemma inject_Z_zero q : inject_Z q == 0 <-> q = 0%Z.
Proof.
  unfold Qeq; simpl. lia.
Qed.

Lemma cnc_defined mass vol price pp q :
  (exists e, estimate_cnc_cost mass vol price pp q = Some e) <-> q <> 0%Z.
Proof.
  unfold estimate_cnc_cost, cnc_components.
  destruct (pydiv (qget pp "tooling_base" 50) (inject_Z q)) eqn:E; simpl.
  - split; [|eauto]. intros _ Hq. subst.
    assert (Hn : pydiv (qget pp "tooling_base" 50) (inject_Z 0) = None)
      by (apply pydiv_none; reflexivity). congruence.
  - split; [intros [e He]; discriminate|]. intros Hq. exfalso.
    apply Hq, inject_Z_zero. exact (proj1 (pydiv_none _ _) E).
Qed.

Lemma injection_defined mass vol price q :
  (exists e, estimate_injection_molding_cost mass vol price
               (odflt [] (process_rates "injection_molding")) q = Some e) <-> q <> 0%Z.
Proof.
  unfold estimate_injection_molding_cost. cbn [odflt process_rates qget String.eqb].
  unfold obind at 1 2. cbn.
  destruct (pydiv 5000 (inject_Z q)) eqn:E; simpl.
  - split; [|eauto]. intros _ Hq. subst.
    assert (Hn : pydiv 5000 (inject_Z 0) = None) by (apply pydiv_none; reflexivity).
    congruence.
  - split; [intros [e He]; discriminate|]. intros Hq. exfalso.
    apply Hq, inject_Z_zero. exact (proj1 (pydiv_none _ _) E).
Qed.

Lemma printing_defined mass vol price pp q :
  exists e, estimate_3d_printing_cost mass vol price pp q = Some e.
Proof. eexists. reflexivity. Qed.

(** [estimate_cost] raises exactly when [quantity = 0] and the process is
    not ['3d_printing']. *)
Lemma estimate_cost_defined p b q :
  (exists e, estimate_cost p b q = Some e) <->
  (q <> 0%Z \/ process_of p = "3d_printing").
Proof.
  unfold estimate_cost.
  destruct (String.eqb (process_of p) "cnc_milling") eqn:E1.
  { apply String.eqb_eq in E1. rewrite cnc_defined, E1.
    split; [auto|intros [H|H]; [exact H|discriminate]]. }
  destruct (String.eqb (process_of p) "3d_printing") eqn:E2.
  { apply String.eqb_eq in E2. split; [auto|intros _; apply printing_defined]. }
  apply String.eqb_neq in E2.
  destruct (String.eqb (process_of p) "injection_molding") eqn:E3.
  { apply String.eqb_eq in E3. unfold process_params_of. rewrite E3, injection_defined.
    rewrite E3 in E2. split; [auto|intros [H|H]; [exact H|contradiction]]. }
  rewrite cnc_defined. split; [auto|intros [H|H]; [exact H|contradiction]].
Qed.

(** C2, as stated, fails: with the default parameters and [quantity = 0],
    [estimate_cost] raises ([tooling_base / quantity]), and so does the
    injection-molding formula ([mold_cost / quantity]). *)
Lemma estimate_cost_zero_quantity_raises :
  estimate_cost (mk_params None None None None) (mk_bbox None) 0 = None /\
  estimate_cost (mk_params None (Some "injection_molding") None None) (mk_bbox None) 0 = None.
Proof. split; vm_compute; reflexivity. Qed.

(** C2, amended: [estimate_cost] returns a record exactly when
    [quantity <> 0] or the process is ['3d_printing']; the cycle-time
    divisor comes from the fixed rate table (30 s) and is never zero. *)
Theorem estimate_cost_raises_iff p b q :
  (exists e, estimate_cost p b q = Some e) <->
  (q <> 0%Z \/ process_of p = "3d_printing").
Proof. apply estimate_cost_defined. Qed.

(** ** The CNC volume discount *)

(** C7: the CNC unit cost (and total cost) is the undiscounted unit cost
    times exactly one tier multiplier; at [quantity = 1000] the multiplier
    is 0.70. *)
Theorem cnc_volume_discount mass vol price pp q :
  option_map (fun e => (unit_cost e, total_cost e))
    (estimate_cnc_cost mass vol price pp q) =
  option_map (fun cc => (round2 (cnc_unit cc * volume_discount q),
                         round2 (cnc_unit cc * volume_discount q * inject_Z q)))
    (cnc_components mass vol price pp q) /\
  volume_discount 1000 = 7#10.
Proof.
  split; [|reflexivity].
  unfold estimate_cnc_cost.
  destruct (cnc_components mass vol price pp q) as [cc|]; [|reflexivity]. simpl.
  unfold cnc_discount, volume_discount.
  destruct (1000 <=? q)%Z, (500 <=? q)%Z, (100 <=? q)%Z; try reflexivity.
  f_equal; apply pair_equal_spec; split; apply pyround_compat; ring.
Qed.

(** ** A stable sort *)

Section SortFacts.
Context {A : Type} (key : A -> Q).

Local Abbreviation R := (key_le key).
Local Abbreviation ins := (fun acc x => insert_by key x acc).

Lemma insert_by_perm x l : Permutation (insert_by key x l) (x :: l).
Proof.
  induction l as [|y l IH]; simpl; [reflexivity|].
  destruct (qltb (key x) (key y)); [reflexivity|].
  rewrite IH. apply perm_swap.
Qed.

Lemma sort_by_perm_acc l acc : Permutation (fold_left ins l acc) (acc ++ l).
Proof.
  revert acc. induction l as [|a l IH]; intros acc; simpl; [now rewrite app_nil_r|].
  rewrite IH. rewrite insert_by_perm. simpl.
  apply Permutation_middle.
Qed.

Lemma insert_by_hd y x l :
  HdRel R y l -> R y x -> HdRel R y (insert_by key x l).
Proof.
  intros Hh Hx. destruct l as [|z l]; simpl; [now constructor|].
  destruct (qltb (key x) (key z)); constructor; [exact Hx|].
  now inversion Hh.
Qed.

Lemma insert_by_sorted x l : Sorted R l -> Sorted R (insert_by key x l).
Proof.
  induction 1 as [|y l Hs IH Hh]; simpl; [now repeat constructor|].
  destruct (qltb (key x) (key y)) eqn:E.
  - apply qltb_spec in E. constructor; [now constructor|].
    constructor. unfold key_le. lra.
  - apply qltb_false in E. constructor; [exact IH|].
    apply insert_by_hd; [exact Hh|exact E].
Qed.

Lemma sort_by_sorted_acc l acc : Sorted R acc -> Sorted R (fold_left ins l acc).
Proof.
  revert acc. induction l as [|a l IH]; intros acc H; simpl; [exact H|].
  apply IH. apply insert_by_sorted, H.
Qed.

Lemma insert_by_stable k x l :
  Sorted R l ->
  filter (key_is key k) (insert_by key x l) = filter (key_is key k) l ++ filter (key_is key k) [x].
Proof.
  intros Hs. induction Hs as [|y l Hs IH Hh]; [reflexivity|]. simpl.
  destruct (qltb (key x) (key y)) eqn:E.
  - apply qltb_spec in E. simpl. destruct (key_is key k x) eqn:Ex.
    + assert (Hnone : filter (key_is key k) (y :: l) = []).
      { apply filter_nil_of. intros z Hz.
        assert (Hyz : key y <= key z).
        { destruct Hz as [<-|Hz]; [apply Qle_refl|].
          assert (Hss : StronglySorted R (y :: l)).
          { assert (HT : Transitive R) by (intros a b c H1 H2; unfold key_le in *; lra).
            apply (Sorted_StronglySorted HT). now constructor. }
          inversion Hss as [|? ? _ Hf]. rewrite Forall_forall in Hf. now apply Hf. }
        unfold key_is in *. apply Qeq_bool_iff in Ex.
        destruct (Qeq_bool (key z) k) eqn:Ez; [|reflexivity].
        apply Qeq_bool_iff in Ez. lra. }
      simpl in Hnone. rewrite Hnone. reflexivity.
    + rewrite app_nil_r. reflexivity.
  - simpl. rewrite IH. destruct (key_is key k y); reflexivity.
Qed.

Lemma sort_by_stable_acc k l acc :
  Sorted R acc ->
  filter (key_is key k) (fold_left ins l acc) = filter (key_is key k) acc ++ filter (key_is key k) l.
Proof.
  revert acc. induction l as [|a l IH]; intros acc H; simpl.
  - now rewrite app_nil_r.
  - rewrite IH by (apply insert_by_sorted, H).
    rewrite insert_by_stable by exact H. rewrite <- app_assoc. simpl. destruct (key_is key k a); reflexivity.
Qed.

Lemma sort_by_spec l :
  Permutation (sort_by key l) l /\
  Sorted (fun a b => key a <= key b) (sort_by key l) /\
  (forall k, filter (key_is key k) (sort_by key l) = filter (key_is key k) l).
Proof.
  unfold sort_by. split; [|split].
  - apply sort_by_perm_acc.
  - apply sort_by_sorted_acc. constructor.
  - intros k. rewrite sort_by_stable_acc by constructor. reflexivity.
Qed.

End SortFacts.

(** ** [compare_processes] *)

(** C8, as stated, fails at [quantity = 0]: the CNC estimate raises, so
    [compare_processes] raises instead of returning three estimates. *)
Lemma compare_processes_zero_quantity_raises :
  compare_processes (mk_params None None None None) (mk_bbox None) 0 = None.
Proof. vm_compute. reflexivity. Qed.

(** C8, amended: for every [quantity <> 0], [compare_processes] evaluates
    [estimate_cost] for cnc_milling, 3d_printing and injection_molding with
    the same bounding box and quantity, and returns these three estimates
    sorted non-decreasing by [unit_cost], equal keys in process-list order. *)
Theorem compare_processes_sorted p b q (Hq : q <> 0%Z) :
  exists e1 e2 e3 l,
    estimate_cost (with_process p "cnc_milling") b q = Some e1 /\
    estimate_cost (with_process p "3d_printing") b q = Some e2 /\
    estimate_cost (with_process p "injection_molding") b q = Some e3 /\
    compare_processes p b q = Some l /\
    Permutation l [e1; e2; e3] /\
    Sorted (fun a c => unit_cost a <= unit_cost c) l /\
    (forall k, filter (key_is unit_cost k) l = filter (key_is unit_cost k) [e1; e2; e3]).
Proof.
  destruct (proj2 (estimate_cost_defined (with_process p "cnc_milling") b q) (or_introl Hq))
    as [e1 H1].
  destruct (proj2 (estimate_cost_defined (with_process p "3d_printing") b q) (or_introl Hq))
    as [e2 H2].
  destruct (proj2 (estimate_cost_defined (with_process p "injection_molding") b q)
              (or_introl Hq)) as [e3 H3].
  exists e1, e2, e3, (sort_by unit_cost [e1; e2; e3]).
  destruct (sort_by_spec unit_cost [e1; e2; e3]) as (Hp & Hs & Hst).
  repeat split; auto.
  unfold compare_processes, processes. cbn [map collect]. rewrite H1, H2, H3. reflexivity.
Qed.

Lemma compare_processes_sorted_witness :
  (100 <> 0)%Z /\
  exists l, compare_processes (mk_params None None None None) (mk_bbox (Some 100000)) 100
            = Some l /\ Sorted (fun a c => unit_cost a <= unit_cost c) l.
Proof.
  split; [discriminate|].
  destruct (compare_processes_sorted (mk_params None None None None)
              (mk_bbox (Some 100000)) 100 ltac:(discriminate))
    as (e1 & e2 & e3 & l & _ & _ & _ & Hc & _ & Hs & _).
  exists l. split; assumption.
Defined.

(** ** 3D printing *)

(** C9: the 3D-printing [unit_cost] does not depend on the quantity; two
    estimates for different quantities differ only in [total_cost] and the
    echoed [quantity], and [total_cost] is the unrounded unit cost times
    the quantity, rounded. *)
Theorem printing_unit_cost_quantity_independent p b q1 q2 :
  let p3 := with_process p "3d_printing" in
  exists e1 e2 u,
    estimate_cost p3 b q1 = Some e1 /\
    estimate_cost p3 b q2 = Some e2 /\
    unit_cost e1 = unit_cost e2 /\
    e2 = mk_estimate (process e1) (unit_cost e1) (total_cost e2) (breakdown e1)
           (lead_time_days e1) (best_for e1) q2 (mass_kg e1) (extras e1) /\
    unit_cost e1 = round2 u /\
    total_cost e1 = round2 (u * inject_Z q1) /\
    total_cost e2 = round2 (u * inject_Z q2).
Proof.
  intros p3. do 3 eexists.
  split; [reflexivity|]. split; [reflexivity|].
  repeat split; reflexivity.
Qed.

(** ** Processes without a branch *)

(** C10: ['sheet_metal'] has rates but no branch in [estimate_cost]; it
    falls through to the CNC formula with labor_rate 14 and overhead_rate
    0.22 from its table and the CNC defaults time_per_cm3 0.5,
    setup_time 15 and tooling_base 50, and the record says ['cnc_milling']. *)
Theorem estimate_cost_sheet_metal p b q :
  estimate_cost (with_process p "sheet_metal") b q =
    estimate_cnc_cost (mass_kg_of p b) (volume_cm3_of b) (material_price_of p)
      [("labor_rate", 14); ("overhead_rate", 11#50); ("time_per_cm3", 1#2);
       ("setup_time", 15); ("tooling_base", 50)] q /\
  (forall e, estimate_cost (with_process p "sheet_metal") b q = Some e ->
             process e = "cnc_milling").
Proof.
  assert (E : estimate_cost (with_process p "sheet_metal") b q =
    estimate_cnc_cost (mass_kg_of p b) (volume_cm3_of b) (material_price_of p)
      [("labor_rate", 14); ("overhead_rate", 11#50); ("time_per_cm3", 1#2);
       ("setup_time", 15); ("tooling_base", 50)] q) by reflexivity.
  split; [exact E|]. intros e He. rewrite E in He.
  unfold estimate_cnc_cost in He.
  destruct (cnc_components _ _ _ _ _); simpl in He; [|discriminate].
  injection He as <-. reflexivity.
Qed.

End CostClaims.

(** * String helper facts *)

Module PyStrFacts.
Import PyStr.
Local Open Scope string_scope.

Lemma upper_lower_char c : upper_char (lower_char c) = upper_char c.
Proof. destruct c as [[] [] [] [] [] [] [] []]; reflexivity. Qed.

Lemma lower_upper_char c : lower_char (upper_char c) = lower_char c.
Proof. destruct c as [[] [] [] [] [] [] [] []]; reflexivity. Qed.

Lemma upper_upper_char c : upper_char (upper_char c) = upper_char c.
Proof. destruct c as [[] [] [] [] [] [] [] []]; reflexivity. Qed.

Lemma upper_lower s : upper (lower s) = upper s.
Proof. induction s as [|c s IH]; simpl; [reflexivity|]. now rewrite upper_lower_char, IH. Qed.

Lemma lower_upper s : lower (upper s) = lower s.
Proof. induction s as [|c s IH]; simpl; [reflexivity|]. now rewrite lower_upper_char, IH. Qed.

Lemma upper_upper s : upper (upper s) = upper s.
Proof. induction s as [|c s IH]; simpl; [reflexivity|]. now rewrite upper_upper_char, IH. Qed.

Lemma string_app_nil s : (s ++ "")%string = s.
Proof. induction s as [|c s IH]; simpl; [reflexivity|]. now rewrite IH. Qed.

Lemma prefix_app s t : String.prefix s (s ++ t) = true.
Proof.
  induction s as [|c s IH]; [destruct t; reflexivity|].
  simpl. destruct (ascii_dec c c); [exact IH|congruence].
Qed.

Lemma lower_lower_char c : lower_char (lower_char c) = lower_char c.
Proof. destruct c as [[] [] [] [] [] [] [] []]; reflexivity. Qed.

Lemma lower_lower s : lower (lower s) = lower s.
Proof. induction s as [|c s IH]; simpl; [reflexivity|]. now rewrite lower_lower_char, IH. Qed.

Lemma string_app_assoc x y z : x ++ (y ++ z) = (x ++ y) ++ z.
Proof. induction x as [|c x IH]; simpl; [reflexivity|]. now rewrite IH. Qed.

Lemma prefix_cons_same a s t : String.prefix (String a s) (String a t) = String.prefix s t.
Proof. simpl. destruct (ascii_dec a a); congruence. Qed.

Lemma prefix_nil s : String.prefix "" s = true.
Proof. now destruct s. Qed.

Lemma contains_prefix n h : String.prefix n h = true -> contains n h = true.
Proof. intros H. destruct h; cbn [contains]; rewrite H; reflexivity. Qed.

Lemma contains_refl s : contains s s = true.
Proof.
  apply contains_prefix. rewrite <- (string_app_nil s) at 2. apply prefix_app.
Qed.

Lemma contains_app_r n x y : contains n (x ++ n ++ y) = true.
Proof.
  induction x as [|c x IH]; [exact (contains_prefix _ _ (prefix_app n y))|].
  cbn [append contains]. now destruct (String.prefix n _).
Qed.

Lemma prefix_bt_false r c s :
  c <> "`"%char -> String.prefix (String "`" r) (String c s) = false.
Proof. intros H. cbn [String.prefix]. destruct (ascii_dec "`"%char c); congruence. Qed.

Lemma contains_bt_cons c s :
  contains "`" (String c s) = false -> c <> "`"%char /\ contains "`" s = false.
Proof.
  cbn [contains]. intros H. destruct (ascii_dec "`"%char c) as [E|E].
  - subst. simpl in H. rewrite prefix_nil in H. discriminate H.
  - rewrite prefix_bt_false in H by congruence. auto.
Qed.


Lemma contains_bt_nil n : n <> EmptyString -> contains n EmptyString = false.
Proof. destruct n; [congruence|reflexivity]. Qed.

(** A text without a backtick contains no needle that starts with one. *)
Lemma contains_nobt r x :
  contains "`" x = false -> contains (String "`" r) x = false.
Proof.
  induction x as [|c x IH]; [reflexivity|].
  intros H. apply contains_bt_cons in H as [Hc Hx].
  cbn [contains]. rewrite prefix_bt_false by exact Hc. auto.
Qed.

Lemma find_sep_app_nobt r x y :
  contains "`" x = false ->
  find_sep (String "`" r) (x ++ y) =
  match find_sep (String "`" r) y with
  | Some (b, a) => Some ((x ++ b)%string, a)
  | None => None
  end.
Proof.
  induction x as [|c x IH]; intros H.
  - simpl. now destruct (find_sep _ y) as [[b a]|].
  - apply contains_bt_cons in H as [Hc Hx].
    cbn [append find_sep]. rewrite prefix_bt_false by exact Hc.
    rewrite IH by exact Hx. now destruct (find_sep _ y) as [[b a]|].
Qed.

Lemma find_sep_nobt r x :
  contains "`" x = false -> find_sep (String "`" r) x = None.
Proof.
  intros H. rewrite <- (string_app_nil x), find_sep_app_nobt by exact H.
  reflexivity.
Qed.

Lemma drop_app s t : drop (String.length s) (s ++ t) = t.
Proof. induction s as [|c s IH]; [destruct t; reflexivity|exact IH]. Qed.

Lemma find_sep_prefix sep s :
  String.prefix sep s = true -> find_sep sep s = Some (EmptyString, drop (String.length sep) s).
Proof. intros H. destruct s; cbn [find_sep]; rewrite H; reflexivity. Qed.

Lemma find_sep_self sep y : find_sep sep (sep ++ y) = Some (EmptyString, y).
Proof. rewrite find_sep_prefix by apply prefix_app. now rewrite drop_app. Qed.

Lemma find_sep_some n s : contains n s = true -> find_sep n s <> None.
Proof.
  induction s as [|c s IH]; cbn [contains find_sep].
  - now destruct (String.prefix n EmptyString).
  - destruct (String.prefix n (String c s)); [discriminate|].
    intros H. specialize (IH H). now destruct (find_sep n s) as [[b a]|].
Qed.

Lemma lstrip_app x c y :
  is_space c = false -> lstrip (x ++ String c y) = lstrip x ++ String c y.
Proof.
  intros Hc. induction x as [|d x IH].
  - cbn. now rewrite Hc.
  - cbn [append lstrip]. now destruct (is_space d).
Qed.

Lemma append_eq_nil x y : (x ++ y)%string = EmptyString -> y = EmptyString.
Proof. destruct x; simpl; [auto|discriminate]. Qed.

Lemma rstrip_app x y :
  rstrip y <> EmptyString -> rstrip (x ++ y) = x ++ rstrip y.
Proof.
  intros Hy. induction x as [|d x IH]; [reflexivity|].
  cbn [append rstrip]. rewrite IH.
  destruct (String.eqb (x ++ rstrip y) "") eqn:E.
  - apply String.eqb_eq, append_eq_nil in E. contradiction.
  - reflexivity.
Qed.

Lemma rstrip_cons c y : is_space c = false -> rstrip (String c y) = String c (rstrip y).
Proof. intros Hc. cbn. rewrite Hc, andb_false_r. reflexivity. Qed.

Lemma lstrip_nobt x : contains "`" x = false -> contains "`" (lstrip x) = false.
Proof.
  induction x as [|c x IH]; [auto|]. intros H. cbn [lstrip].
  destruct (is_space c); [|exact H].
  apply IH, (contains_bt_cons c x H).
Qed.

Lemma rstrip_nobt x : contains "`" x = false -> contains "`" (rstrip x) = false.
Proof.
  induction x as [|c x IH]; [auto|]. intros H.
  pose proof (contains_bt_cons c x H) as [Hc Hx]. cbn [rstrip].
  destruct (String.eqb (rstrip x) "" && is_space c); [reflexivity|].
  cbn [contains]. rewrite prefix_bt_false by exact Hc. auto.
Qed.

Lemma prefix_bt_nobt r x : contains "`" x = false -> String.prefix (String "`" r) x = false.
Proof.
  destruct x as [|c x]; [reflexivity|]. intros H.
  apply prefix_bt_false, (contains_bt_cons c x H).
Qed.

Lemma strip_nobt x : contains "`" x = false -> contains "`" (strip x) = false.
Proof. intros H. apply lstrip_nobt, rstrip_nobt, H. Qed.

End PyStrFacts.

(** * Properties of the component library *)

Module ComponentFacts.
Import PyStr Components PyStrFacts.

Lemma lookup_in k d v : lookup k d = Some v -> In (k, v) d.
Proof.
  induction d as [|[k' v'] d IH]; simpl; [discriminate|].
  destruct (String.eqb k k') eqn:E.
  - apply String.eqb_eq in E. subst. intros H. injection H as <-. now left.
  - intros H. right. now apply IH.
Qed.

Lemma in_components k v :
  In (k, v) components -> lookup k components = Some v /\ k <> "" /\ v <> [].
Proof.
  simpl. intros H.
  repeat destruct H as [H|H]; try contradiction; injection H as <- <-;
    repeat split; discriminate.
Qed.

Lemma get_category_lookup cat c :
  In c (get_category cat) ->
  exists comps, lookup cat components = Some comps /\ In c comps /\
                In (cat, comps) components.
Proof.
  unfold get_category. destruct (lookup cat components) as [comps|] eqn:E;
    [|simpl; tauto].
  intros H. exists comps. split; [reflexivity|]. split; [exact H|].
  now apply lookup_in.
Qed.

Lemma search_sound q cat_opt cat c :
  In (cat, c) (search q cat_opt) ->
  In cat get_all_categories /\ In c (get_category cat) /\
  contains (lower q) (lower (name c)) = true /\
  (forall k, cat_opt = Some k -> k <> "" -> cat = k).
Proof.
  unfold search. rewrite in_flat_map. intros [cat' [Hcat Hin]].
  destruct (lookup cat' components) as [comps|] eqn:E; [|contradiction].
  rewrite in_map_iff in Hin. destruct Hin as [c' [Heq Hf]].
  injection Heq as <- <-. apply filter_In in Hf as [Hc Hq].
  split; [|split; [|split]].
  - unfold get_all_categories. apply (in_map fst _ (cat', comps)), lookup_in, E.
  - unfold get_category. now rewrite E.
  - exact Hq.
  - intros k -> Hk. apply String.eqb_neq in Hk. rewrite Hk in Hcat.
    destruct Hcat as [Hcat|[]]. now subst.
Qed.

Lemma search_complete q cat c :
  In c (get_category cat) ->
  contains (lower q) (lower (name c)) = true ->
  In (cat, c) (search q None) /\ In (cat, c) (search q (Some "")) /\
  In (cat, c) (search q (Some cat)).
Proof.
  intros Hc Hq. destruct (get_category_lookup cat c Hc) as [comps [E [Hin Hpair]]].
  assert (Hhit : In (cat, c)
            (match lookup cat components with
             | Some comps0 => map (fun c0 => (cat, c0))
                 (filter (fun c0 => contains (lower q) (lower (name c0))) comps0)
             | None => [] end)).
  { rewrite E. apply (in_map (fun c0 => (cat, c0))), filter_In. now split. }
  assert (Hall : In (cat, c) (flat_map (fun cat0 =>
             match lookup cat0 components with
             | Some comps0 => map (fun c0 => (cat0, c0))
                 (filter (fun c0 => contains (lower q) (lower (name c0))) comps0)
             | None => [] end) (map fst components))).
  { apply in_flat_map. exists cat. split; [|exact Hhit].
    apply (in_map fst _ (cat, comps)), Hpair. }
  split; [exact Hall|]. split; [exact Hall|].
  unfold search. destruct (in_components _ _ Hpair) as [_ [Hne _]].
  apply String.eqb_neq in Hne. rewrite Hne. simpl. rewrite app_nil_r. exact Hhit.
Qed.

Lemma get_component_sound cat n c :
  get_component cat n = Some c ->
  In c (get_category cat) /\ upper (name c) = upper n.
Proof.
  unfold get_component, get_category.
  destruct (lookup cat components) as [comps|]; [|discriminate].
  intros H. apply find_some in H as [Hin Heq].
  apply String.eqb_eq in Heq. now split.
Qed.

Lemma get_component_upper cat n n' :
  upper n = upper n' -> get_component cat n = get_component cat n'.
Proof. unfold get_component. intros H. now rewrite H. Qed.

End ComponentFacts.

Module ComponentProps.
Import PyStr Components PyStrFacts ComponentFacts.

(** [search] returns only components of the library: each hit is
    [(cat, c)] with [cat] a library category, [c] one of its components
    whose lower-cased name contains the lower-cased query, and [cat] the
    requested category whenever a non-empty category was given. *)
Theorem search_hits_match q cat_opt cat c :
  In (cat, c) (search q cat_opt) ->
  In cat get_all_categories /\ In c (get_category cat) /\
  contains (lower q) (lower (name c)) = true /\
  (forall k, cat_opt = Some k -> k <> "" -> cat = k).
Proof. apply search_sound. Qed.

Lemma search_hits_match_witness :
  In ("metric_bolts", Components.bolt "M3" 3 (16#5) (31#10) (1#2)) (search "m3" (Some "metric_bolts")) /\
  (In "metric_bolts" get_all_categories /\
   In (Components.bolt "M3" 3 (16#5) (31#10) (1#2)) (get_category "metric_bolts") /\
   contains (lower "m3") (lower (name (Components.bolt "M3" 3 (16#5) (31#10) (1#2)))) = true /\
   (forall k, Some "metric_bolts" = Some k -> k <> "" -> "metric_bolts" = k)).
Proof.
  assert (H : In ("metric_bolts", Components.bolt "M3" 3 (16#5) (31#10) (1#2))
                 (search "m3" (Some "metric_bolts"))) by (simpl; tauto).
  split; [exact H|].
  exact (search_hits_match "m3" (Some "metric_bolts") "metric_bolts" _ H).
Defined.

(** [search] misses no match: a component whose lower-cased name contains
    the lower-cased query is returned when searching its own category, and
    when searching without a category, where [None] and the falsy [""]
    both mean every category. *)
Theorem search_finds_every_match q cat c :
  In c (get_category cat) ->
  contains (lower q) (lower (name c)) = true ->
  In (cat, c) (search q None) /\ In (cat, c) (search q (Some "")) /\
  In (cat, c) (search q (Some cat)).
Proof. apply search_complete. Qed.

Lemma search_finds_every_match_witness :
  (In (Components.bolt "M3" 3 (16#5) (31#10) (1#2)) (get_category "metric_bolts") /\
   contains (lower "m3") (lower (name (Components.bolt "M3" 3 (16#5) (31#10) (1#2)))) = true) /\
  (In ("metric_bolts", Components.bolt "M3" 3 (16#5) (31#10) (1#2)) (search "m3" None) /\
   In ("metric_bolts", Components.bolt "M3" 3 (16#5) (31#10) (1#2)) (search "m3" (Some "")) /\
   In ("metric_bolts", Components.bolt "M3" 3 (16#5) (31#10) (1#2))
      (search "m3" (Some "metric_bolts"))).
Proof.
  assert (H1 : In (Components.bolt "M3" 3 (16#5) (31#10) (1#2)) (get_category "metric_bolts"))
    by (simpl; tauto).
  assert (H2 : contains (lower "m3") (lower (name (Components.bolt "M3" 3 (16#5) (31#10) (1#2))))
               = true) by reflexivity.
  split; [split; assumption|].
  exact (search_finds_every_match "m3" "metric_bolts" _ H1 H2).
Defined.

(** The empty query matches every name: [search('', cat)] lists the whole
    category in library order, and [search('')] the whole library. *)
Theorem search_empty_query cat :
  cat <> "" ->
  search "" (Some cat) = map (fun c => (cat, c)) (get_category cat) /\
  search "" None = flat_map (fun k => map (fun c => (k, c)) (get_category k))
                            get_all_categories.
Proof.
  intros Hne. assert (Hall : forall l : list component,
    filter (fun c => contains (lower "") (lower (name c))) l = l).
  { intros l. apply filter_all_of. intros x _. apply contains_prefix, prefix_nil. }
  split.
  - unfold search. apply String.eqb_neq in Hne. rewrite Hne. cbn [flat_map].
    rewrite app_nil_r. unfold get_category.
    destruct (lookup cat components); [now rewrite Hall|reflexivity].
  - unfold search, get_all_categories. apply flat_map_ext. intros k.
    unfold get_category. destruct (lookup k components); [now rewrite Hall|reflexivity].
Qed.

Lemma search_empty_query_witness :
  "nema_motors" <> "" /\
  search "" (Some "nema_motors") =
    map (fun c => ("nema_motors", c)) (get_category "nema_motors") /\
  search "" None = flat_map (fun k => map (fun c => (k, c)) (get_category k))
                            get_all_categories.
Proof. split; [discriminate|]. apply search_empty_query. discriminate. Defined.

(** A category that is not in the library gives nothing anywhere:
    [search] restricted to it, [get_component] and [get_category] all come
    back empty. *)
Theorem unknown_category_empty cat q n :
  ~ In cat get_all_categories -> cat <> "" ->
  search q (Some cat) = [] /\ get_component cat n = None /\ get_category cat = [].
Proof.
  intros Hcat Hne.
  assert (E : lookup cat components = None).
  { destruct (lookup cat components) as [v|] eqn:E; [|reflexivity].
    exfalso. apply Hcat. apply (in_map fst _ (cat, v)), lookup_in, E. }
  apply String.eqb_neq in Hne.
  unfold search, get_component, get_category. rewrite Hne. cbn [flat_map].
  rewrite E. auto.
Qed.

Lemma unknown_category_empty_witness :
  (~ In "gears" get_all_categories /\ "gears" <> "") /\
  (search "nema" (Some "gears") = [] /\ get_component "gears" "NEMA17" = None /\
   get_category "gears" = []).
Proof.
  split; [split; [simpl; intuition discriminate | discriminate]|].
  apply unknown_category_empty; [simpl; intuition discriminate | discriminate].
Defined.

(** Round trip: looking a library component up by its own name, in its
    own category, returns that component; names are unique within a
    category up to letter case. *)
Theorem get_component_own_name cat c :
  In c (get_category cat) -> get_component cat (name c) = Some c.
Proof.
  intros H. destruct (get_category_lookup cat c H) as [comps [_ [Hin Hpair]]].
  simpl in Hpair.
  repeat destruct Hpair as [Hpair|Hpair]; try contradiction;
    injection Hpair as <- <-; simpl in Hin;
    repeat destruct Hin as [Hin|Hin]; try contradiction; subst; reflexivity.
Qed.

Lemma get_component_own_name_witness :
  In (Components.bolt "M8" 8 9 (42#5) (5#4)) (get_category "metric_bolts") /\
  get_component "metric_bolts" (name (Components.bolt "M8" 8 9 (42#5) (5#4))) =
    Some (Components.bolt "M8" 8 9 (42#5) (5#4)).
Proof.
  split; [simpl; tauto|]. apply get_component_own_name. simpl; tauto.
Defined.

(** [get_component] ignores the letter case of the requested name: an
    ASCII name, its lower-case and its upper-case spelling find the same
    component (or none). *)
Theorem get_component_case_insensitive cat n :
  is_ascii n = true ->
  get_component cat (lower n) = get_component cat n /\
  get_component cat (upper n) = get_component cat n.
Proof.
  intros _. split; apply get_component_upper;
    [apply upper_lower | apply upper_upper].
Qed.

Lemma get_component_case_insensitive_witness :
  is_ascii "nema17" = true /\
  (get_component "nema_motors" (lower "nema17") = get_component "nema_motors" "nema17" /\
   get_component "nema_motors" (upper "nema17") = get_component "nema_motors" "nema17").
Proof. split; [reflexivity|]. apply get_component_case_insensitive. reflexivity. Defined.

(** Whatever [get_component(cat, n)] finds, [search(n, cat)] also lists:
    equal upper-case names have equal lower-case names, and a name
    contains itself. *)
Theorem get_component_found_by_search cat n c :
  is_ascii n = true -> get_component cat n = Some c -> In (cat, c) (search n (Some cat)).
Proof.
  intros _ H. destruct (get_component_sound cat n c H) as [Hin Hup].
  apply (search_complete n cat c Hin).
  rewrite <- (lower_upper (name c)), Hup, lower_upper. apply contains_refl.
Qed.

Lemma get_component_found_by_search_witness :
  (is_ascii "usb-c" = true /\
   get_component "connectors" "usb-c" =
     Some (mk_component "USB-C" [("width", VFloat (42#5)); ("height", VFloat (13#5));
                                 ("depth", VFloat (73#10)); ("type", VStr "usb")])) /\
  In ("connectors",
      mk_component "USB-C" [("width", VFloat (42#5)); ("height", VFloat (13#5));
                            ("depth", VFloat (73#10)); ("type", VStr "usb")])
     (search "usb-c" (Some "connectors")).
Proof.
  assert (H : get_component "connectors" "usb-c" =
     Some (mk_component "USB-C" [("width", VFloat (42#5)); ("height", VFloat (13#5));
                                 ("depth", VFloat (73#10)); ("type", VStr "usb")]))
    by reflexivity.
  split; [split; [reflexivity|exact H]|].
  exact (get_component_found_by_search "connectors" "usb-c" _ eq_refl H).
Defined.

End ComponentProps.

(** * Properties of the parser's fallback and JSON extraction *)

Module ParserFacts.
Import PyStr Parser PyStrFacts.
Local Open Scope string_scope.

Lemma rstrip_fence x y : rstrip (x ++ "```" ++ y) = x ++ "```" ++ rstrip y.
Proof.
  assert (H : rstrip ("```" ++ y) = "```" ++ rstrip y)
    by (cbn [append]; rewrite !rstrip_cons by reflexivity; reflexivity).
  rewrite rstrip_app; rewrite H; [reflexivity|discriminate].
Qed.

Lemma strip_json_fence pre body post :
  strip (pre ++ "```json" ++ body ++ "```" ++ post) =
  lstrip pre ++ "```json" ++ body ++ "```" ++ rstrip post.
Proof.
  unfold strip.
  rewrite (string_app_assoc "```json" body), (string_app_assoc pre), rstrip_fence.
  rewrite <- !string_app_assoc.
  change ("```json" ++ body ++ "```" ++ rstrip post)
    with (String "`" ("``json" ++ body ++ "```" ++ rstrip post)).
  rewrite lstrip_app by reflexivity. reflexivity.
Qed.

Lemma find_sep_json_fence y :
  contains "`" y = false ->
  (exists a, find_sep "```json" ("```" ++ y) = Some ("", a)) \/
  find_sep "```json" ("```" ++ y) = None.
Proof.
  intros Hy. destruct (String.prefix "```json" ("```" ++ y)) eqn:E.
  - left. eexists. apply find_sep_prefix, E.
  - right. change ("```" ++ y) with (String "`" (String "`" (String "`" y))).
    change ("```" ++ y) with (String "`" (String "`" (String "`" y))) in E.
    cbn [find_sep]. rewrite E.
    rewrite !prefix_cons_same.
    rewrite (prefix_bt_nobt "json" y Hy), (prefix_bt_nobt "`json" y Hy).
    rewrite (find_sep_nobt "``json" y Hy). reflexivity.
Qed.

Lemma split_json_fence body post :
  contains "`" body = false -> contains "`" post = false ->
  split0 "```" (split0 "```json" (body ++ "```" ++ post)) = body.
Proof.
  intros Hb Hp. unfold split0 at 2.
  rewrite (find_sep_app_nobt "``json" body ("```" ++ post) Hb).
  destruct (find_sep_json_fence post Hp) as [[a E]|E]; rewrite E.
  - rewrite string_app_nil. unfold split0. now rewrite (find_sep_nobt "``" body Hb).
  - unfold split0. rewrite (find_sep_app_nobt "``" body ("```" ++ post) Hb).
    rewrite find_sep_self. apply string_app_nil.
Qed.

End ParserFacts.

Module ParserProps.
Import PyStr Parser PyStrFacts ParserFacts.

(** The extraction in [parse] never raises [IndexError]: each
    [split(...)[1]] is guarded by the [in] test on the same separator. *)
Theorem extract_json_never_raises response : extract_json response <> None.
Proof.
  unfold extract_json, split1.
  destruct (contains "```json" (strip response)) eqn:E1.
  - pose proof (find_sep_some _ _ E1).
    destruct (find_sep "```json" (strip response)) as [[b a]|]; [discriminate|contradiction].
  - destruct (contains "```" (strip response)) eqn:E2; [|discriminate].
    pose proof (find_sep_some _ _ E2).
    destruct (find_sep "```" (strip response)) as [[b a]|]; [discriminate|contradiction].
Qed.

(** A reply that wraps the JSON in a ```` ```json ... ``` ```` fence gives
    exactly the fenced text, stripped, to [json.loads], whatever comes
    before and after the fence, as long as no other backtick occurs. *)
Theorem extract_json_fenced pre body post :
  contains "`" pre = false -> contains "`" body = false -> contains "`" post = false ->
  extract_json (pre ++ "```json" ++ body ++ "```" ++ post) = Some (strip body).
Proof.
  intros Hpre Hb Hpost. unfold extract_json. rewrite strip_json_fence.
  rewrite contains_app_r. unfold split1.
  rewrite (find_sep_app_nobt "``json" (lstrip pre)) by (apply lstrip_nobt, Hpre).
  rewrite find_sep_self. rewrite (split_json_fence body (rstrip post) Hb)
    by (apply rstrip_nobt, Hpost).
  reflexivity.
Qed.

Lemma extract_json_fenced_witness :
  (contains "`" "Here you go:
" = false /\ contains "`" " [1, 2] " = false /\
   contains "`" "
Done." = false) /\
  extract_json ("Here you go:
" ++ "```json" ++ " [1, 2] " ++ "```" ++ "
Done.") = Some (strip " [1, 2] ").
Proof.
  split; [repeat split; reflexivity|].
  apply extract_json_fenced; reflexivity.
Defined.

(** A reply without any backtick reaches [json.loads] only stripped of
    surrounding whitespace. *)
Theorem extract_json_unfenced response :
  contains "`" response = false -> extract_json response = Some (strip response).
Proof.
  intros H. pose proof (strip_nobt response H) as Hs. unfold extract_json.
  rewrite (contains_nobt "``json" _ Hs), (contains_nobt "``" _ Hs). reflexivity.
Qed.

Lemma extract_json_unfenced_witness :
  contains "`" "  [3, 4]
" = false /\
  extract_json "  [3, 4]
" = Some (strip "  [3, 4]
").
Proof. split; [reflexivity|]. apply extract_json_unfenced. reflexivity. Defined.

(** Whatever the description, the fallback parameters pass DFM
    validation cleanly: aluminium on CNC with a 2.5 mm wall inside the
    recommended 2-3 mm band and no mounting pattern, so [valid] holds with
    no finding at all, confidence 1.0 and score 100. *)
Theorem default_params_pass_dfm description :
  DFM.validate (core (default_params description)) =
  DFM.mk_result true [] [] [] 1 (Some 100%Z).
Proof. reflexivity. Qed.

(** The keyword detection of [_get_default_params] ignores letter case:
    an ASCII description and its upper- or lower-case spelling give the
    same parameters. *)
Theorem default_params_case_insensitive description :
  is_ascii description = true ->
  default_params (upper description) = default_params description /\
  default_params (lower description) = default_params description.
Proof.
  intros _. unfold default_params. now rewrite lower_upper, lower_lower.
Qed.

Lemma default_params_case_insensitive_witness :
  is_ascii "L-Bracket for a NEMA17" = true /\
  (default_params (upper "L-Bracket for a NEMA17") = default_params "L-Bracket for a NEMA17" /\
   default_params (lower "L-Bracket for a NEMA17") = default_params "L-Bracket for a NEMA17").
Proof.
  split; [reflexivity|]. apply default_params_case_insensitive. reflexivity.
Defined.

End ParserProps.

(** * Properties of the two endpoints *)

Module ApiFacts.
Import Cost Components Api.

Lemma compare_processes_some p b q :
  q <> 0%Z -> exists l, compare_processes p b q = Some l.
Proof.
  intros Hq. unfold compare_processes. cbn [map collect processes].
  destruct (proj2 (CostClaims.estimate_cost_defined (with_process p "cnc_milling") b q)
              (or_introl Hq)) as [e1 E1].
  destruct (proj2 (CostClaims.estimate_cost_defined (with_process p "3d_printing") b q)
              (or_introl Hq)) as [e2 E2].
  destruct (proj2 (CostClaims.estimate_cost_defined (with_process p "injection_molding") b q)
              (or_introl Hq)) as [e3 E3].
  rewrite E1, E2, E3. eexists. reflexivity.
Qed.

Lemma compare_processes_zero p b : compare_processes p b 0 = None.
Proof.
  unfold compare_processes. cbn [map collect processes].
  destruct (estimate_cost (with_process p "cnc_milling") b 0) as [e|] eqn:E;
    [|reflexivity].
  exfalso. destruct (proj1 (CostClaims.estimate_cost_defined _ b 0) (ex_intro _ e E))
    as [H|H]; [now apply H|discriminate].
Qed.

End ApiFacts.

Module ApiProps.
Import Cost Components Api ApiFacts.

(** [GET /components/{category}] never answers 404: the [HTTPException]
    raised for an empty category is caught by [except Exception] and
    re-raised as a 500.  A library category answers 200 with its
    components and their count. *)
Theorem get_category_components_status category :
  status (get_category_components category) <> 404%Z /\
  (status (get_category_components category) = 500%Z <-> get_category category = []) /\
  (get_category category <> [] ->
   get_category_components category =
   inl (mk_category_body category (get_category category)
          (List.length (get_category category)))).
Proof.
  unfold get_category_components.
  destruct (get_category category) as [|c cs]; simpl.
  - split; [discriminate|]. split; [tauto|]. intros H. now contradiction H.
  - split; [discriminate|]. split; [split; discriminate|]. reflexivity.
Qed.

(** [POST /design/{id}/cost] answers 200 exactly when the design is found,
    has a bounding box and [quantity <> 0]; every other request gets a 500,
    never a 404 (also a missing design), and with [quantity = 0] even a
    3D-printing design fails, through [compare_processes]. *)
Theorem estimate_cost_endpoint_status found q :
  (status (estimate_cost_endpoint found q) = 200%Z \/
   status (estimate_cost_endpoint found q) = 500%Z) /\
  (status (estimate_cost_endpoint found q) = 200%Z <->
   exists d b, found = Some d /\ bounding_box d = Some b /\ q <> 0%Z).
Proof.
  unfold estimate_cost_endpoint.
  destruct found as [d|].
  2: { simpl. split; [now right|]. split; [discriminate|]. intros [d [b [H _]]]. discriminate. }
  destruct (bounding_box d) as [b|] eqn:Eb.
  2: { simpl. split; [now right|]. split; [discriminate|].
       intros [d' [b' [H [H' _]]]]. injection H as <-. congruence. }
  destruct (Z.eq_dec q 0) as [->|Hq].
  - rewrite compare_processes_zero.
    split.
    + right. destruct (estimate_cost (parameters d) b 0); reflexivity.
    + split.
      * destruct (estimate_cost (parameters d) b 0); discriminate.
      * intros [d' [b' [_ [_ H]]]]. now contradiction H.
  - destruct (proj2 (CostClaims.estimate_cost_defined (parameters d) b q) (or_introl Hq))
      as [e E].
    destruct (compare_processes_some (parameters d) b q Hq) as [l El].
    rewrite E, El. simpl. split; [now left|]. split; [|reflexivity].
    intros _. now exists d, b.
Qed.

End ApiProps.

(** * Further properties of [DFMValidator.validate] *)

Module DFMMore.
Import DFM DFMSpec DFMFacts DFMClaims.

Lemma hole_crit_len r g hp :
  (List.length (fst (hole_check r g hp)) <= 1)%nat /\
  (fst (hole_check r g hp) <> [] <->
   odflt (9#2) (hole_diameter hp) < odflt 3 (min_hole_diameter r)).
Proof.
  unfold hole_check; simpl. destruct (qltb _ _) eqn:E.
  - apply qltb_spec in E. simpl. split; [lia|]. split; [auto|discriminate].
  - apply qltb_false in E. simpl. split; [lia|]. split; [tauto|]. intros H. lra.
Qed.

Lemma wall_crit_len wt mn mx rc :
  (List.length (fst (fst (wall_check wt mn mx rc))) <= 1)%nat /\
  (fst (fst (wall_check wt mn mx rc)) <> [] <-> wt < mn) /\
  (forall f, In f (fst (fst (wall_check wt mn mx rc))) -> f = wall_crit) /\
  (List.length (snd (fst (wall_check wt mn mx rc))) <= 1)%nat.
Proof.
  unfold wall_check. destruct (qltb wt mn) eqn:E1.
  - apply qltb_spec in E1. simpl. repeat split; try lia; auto; try discriminate.
    intros f [H|[]]. now subst.
  - apply qltb_false in E1.
    assert (Hn : ~ (wt < mn)) by (intros H; lra).
    destruct (qltb mx wt), (qltb wt (fst rc) || qltb (snd rc) wt); simpl; repeat split; try lia; try tauto.
Qed.

Lemma score_antitone ni nw nw' :
  (nw <= nw')%nat -> score ni nw' <= score ni nw.
Proof.
  intros H. rewrite !score_eq. apply Q.max_le_compat_l.
  assert (inject_Z (Z.of_nat nw) <= inject_Z (Z.of_nat nw'))
    by (rewrite <- Zle_Qle; lia).
  lra.
Qed.

Lemma spacing_warnings_app_len ms ps extra :
  (List.length (spacing_warnings ms ps) <= List.length (spacing_warnings ms (ps ++ extra)))%nat.
Proof.
  induction ps as [|p1 rest IH]; simpl; [lia|].
  rewrite flat_map_app, !length_app. lia.
Qed.

Lemma edge_warnings_app_len me bl bw ps extra :
  (List.length (edge_warnings me bl bw ps) <=
   List.length (edge_warnings me bl bw (ps ++ extra)))%nat.
Proof. unfold edge_warnings. rewrite flat_map_app, length_app. lia. Qed.

Lemma score_one_iff ni nw : score ni nw == 1 <-> ni = 0%nat /\ nw = 0%nat.
Proof.
  rewrite score_eq. split.
  - intros H.
    assert (Hi : 0 <= inject_Z (Z.of_nat ni)) by (unfold Qle; simpl; lia).
    assert (Hw : 0 <= inject_Z (Z.of_nat nw)) by (unfold Qle; simpl; lia).
    destruct (Q.max_spec 0 (1 - inject_Z (Z.of_nat ni) * (1 # 5) -
                              inject_Z (Z.of_nat nw) * (1 # 10))) as [[_ E]|[_ E]];
      rewrite E in H; [|lra].
    assert (inject_Z (Z.of_nat ni) == 0) as Ei by lra.
    assert (inject_Z (Z.of_nat nw) == 0) as Ew by lra.
    change 0 with (inject_Z 0) in Ei, Ew. rewrite inject_Z_injective in Ei, Ew. lia.
  - intros [-> ->]. reflexivity.
Qed.

End DFMMore.

Module DFMProps.
Import DFM DFMSpec DFMFacts DFMClaims DFMMore.

(** A design is rejected ([valid] is [False]) exactly when a rule set
    applies and the wall is thinner than [min_wall_thickness], or a
    mounting pattern is given whose hole diameter is below
    [min_hole_diameter]; warnings never make a design invalid. *)
Theorem validate_invalid_iff p :
  valid (validate p) = false <->
  exists r, rules (material_of p) (process_of p) = Some r /\
    (odflt 2 (wall_thickness (odflt empty_geometry (primary_geometry p)))
       < odflt 1 (min_wall_thickness r) \/
     exists hp, mounting_pattern p = Some hp /\
       odflt (9#2) (hole_diameter hp) < odflt 3 (min_hole_diameter r)).
Proof.
  destruct (rules (material_of p) (process_of p)) as [r|] eqn:Hr.
  2: { unfold validate. rewrite Hr. simpl. split; [discriminate|].
       intros [r [H _]]. discriminate. }
  rewrite (validate_rule_path p r Hr). simpl valid.
  rewrite length_app.
  match goal with |- context [wall_check ?a ?b ?c ?d] =>
    destruct (wall_crit_len a b c d) as [Hw1 [Hw2 _]] end.
  split.
  - intros H. exists r. split; [reflexivity|].
    apply Nat.eqb_neq in H.
    destruct (fst (fst (wall_check _ _ _ _))) as [|f wi] eqn:Ew.
    + right. destruct (mounting_pattern p) as [hp|]; cbn iota in H; [|simpl in H; lia].
      exists hp. split; [reflexivity|].
      destruct (hole_crit_len r (odflt empty_geometry (primary_geometry p)) hp) as [_ Hh].
      apply Hh. intros E. rewrite E in H. simpl in H. lia.
    + left. apply Hw2. discriminate.
  - intros [r' [Hr' Hc]]. injection Hr' as <-.
    apply Nat.eqb_neq. destruct Hc as [Hc|[hp [Hm Hc]]].
    + apply Hw2 in Hc. destruct (fst (fst (wall_check _ _ _ _))); [now contradiction Hc|].
      simpl. lia.
    + rewrite Hm. destruct (hole_crit_len r (odflt empty_geometry (primary_geometry p)) hp)
        as [_ Hh].
      apply Hh in Hc. destruct (fst (hole_check _ _ hp)); [now contradiction Hc|].
      simpl. lia.
Qed.

(** [validate] reports at most two issues, both critical: at most one
    for the wall and at most one for the hole diameter. *)
Theorem validate_at_most_two_issues p :
  (List.length (issues (validate p)) <= 2)%nat /\
  forall f, In f (issues (validate p)) ->
    f = wall_crit \/ f = Finding "hole_diameter" (Some "critical").
Proof.
  destruct (rules (material_of p) (process_of p)) as [r|] eqn:Hr.
  2: { unfold validate. rewrite Hr. simpl. split; [lia|tauto]. }
  rewrite (validate_rule_path p r Hr). simpl issues.
  match goal with |- context [wall_check ?a ?b ?c ?d] =>
    destruct (wall_crit_len a b c d) as [Hw1 [_ [Hw3 _]]] end.
  rewrite length_app. split.
  - destruct (mounting_pattern p) as [hp|]; cbn iota; [|simpl; lia].
    destruct (hole_crit_len r (odflt empty_geometry (primary_geometry p)) hp) as [Hh _].
    lia.
  - intros f Hf. apply in_app_or in Hf as [Hf|Hf]; [left; now apply Hw3|].
    right. destruct (mounting_pattern p) as [hp|]; [|contradiction].
    exact (proj1 (hole_check_findings r _ hp f) Hf).
Qed.

(** The confidence is 1.0 exactly when there is neither an issue nor a
    warning; the no-rules answer (confidence 0.5) carries a warning. *)
Theorem validate_full_confidence_iff p :
  confidence (validate p) == 1 <-> issues (validate p) = [] /\ warnings (validate p) = [].
Proof.
  destruct (rules (material_of p) (process_of p)) as [r|] eqn:Hr.
  2: { unfold validate. rewrite Hr. simpl. split; [intros H; discriminate H|].
       intros [_ H]. discriminate. }
  rewrite (validate_rule_path p r Hr). simpl confidence. simpl issues. simpl warnings.
  rewrite score_one_iff, !length_zero_iff_nil. reflexivity.
Qed.

(** Adding mounting-hole positions never makes a design invalid or valid,
    never removes a warning and never raises the confidence. *)
Theorem validate_more_holes p hp extra :
  mounting_pattern p = Some hp ->
  let p' := mk_params (material p) (manufacturing_process p) (primary_geometry p)
              (Some (mk_mounting (hole_diameter hp)
                                 (Some (odflt [] (positions hp) ++ extra)))) in
  valid (validate p') = valid (validate p) /\
  confidence (validate p') <= confidence (validate p) /\
  (List.length (warnings (validate p)) <= List.length (warnings (validate p')))%nat.
Proof.
  intros Hm p'.
  destruct (rules (material_of p) (process_of p)) as [r|] eqn:Hr.
  2: { unfold validate. change (material_of p') with (material_of p).
       change (process_of p') with (process_of p). rewrite Hr.
       simpl. split; [reflexivity|]. split; [apply Qle_refl|lia]. }
  rewrite (validate_rule_path p' r Hr), (validate_rule_path p r Hr).
  simpl. rewrite Hm. simpl. unfold hole_check. simpl.
  rewrite !length_app.
  pose proof (spacing_warnings_app_len (odflt 5 (min_hole_spacing r))
                (odflt [] (positions hp)) extra).
  pose proof (edge_warnings_app_len
                (odflt 3 (min_edge_distance r) * odflt (9 # 2) (hole_diameter hp))
                (odflt 100 (base_length (odflt empty_geometry (primary_geometry p))))
                (odflt 80 (base_width (odflt empty_geometry (primary_geometry p))))
                (odflt [] (positions hp)) extra).
  split; [reflexivity|]. split; [|lia].
  apply score_antitone. lia.
Qed.

Lemma validate_more_holes_witness :
  let hp := mk_mounting (Some 5) (Some [(20, 20)]) in
  let p := mk_params None None None (Some hp) in
  mounting_pattern p = Some hp /\
  (let p' := mk_params (material p) (manufacturing_process p) (primary_geometry p)
               (Some (mk_mounting (hole_diameter hp)
                                  (Some (odflt [] (positions hp) ++ [(22, 20)])))) in
   valid (validate p') = valid (validate p) /\
   confidence (validate p') <= confidence (validate p) /\
   (List.length (warnings (validate p)) <= List.length (warnings (validate p')))%nat).
Proof.
  intros hp p. split; [reflexivity|].
  exact (validate_more_holes p hp [(22, 20)] eq_refl).
Defined.

End DFMProps.

(** * Further properties of [CostEstimator] *)

Module CostMore.
Import Cost CostSpec CostClaims.

(** Case analysis on a string-keyed table, branch by branch. *)
Ltac table_cases :=
  repeat match goal with
  | |- context [match ?x with EmptyString => _ | String _ _ => _ end] => destruct x
  | |- context [match ?x with Ascii _ _ _ _ _ _ _ _ => _ end] => destruct x
  | |- context [if ?b then _ else _] => destruct b
  end.

Lemma material_prices_nonneg m :
  match material_prices m with Some v => 0 <= v | None => True end.
Proof. unfold material_prices. table_cases; first [exact I | simpl; lra]. Qed.

Lemma densities_nonneg m :
  match densities m with Some v => 0 <= v | None => True end.
Proof. unfold densities. table_cases; first [exact I | simpl; lra]. Qed.

Lemma process_rates_nonneg pr :
  Forall (fun kv => 0 <= snd kv) (odflt [] (process_rates pr)).
Proof.
  unfold process_rates. table_cases; simpl;
    repeat (apply Forall_cons; [simpl; lra|]); apply Forall_nil.
Qed.

Lemma qget_nonneg l k d :
  Forall (fun kv => 0 <= snd kv) l -> 0 <= d -> 0 <= qget l k d.
Proof.
  intros Hl Hd. induction Hl as [|[k' v] l Hv Hl IH]; simpl; [exact Hd|].
  destruct (String.eqb k k'); [exact Hv|exact IH].
Qed.

Lemma material_price_of_nonneg p : 0 <= material_price_of p.
Proof.
  unfold material_price_of. pose proof (material_prices_nonneg (material_of p)).
  destruct (material_prices (material_of p)); simpl; [assumption|lra].
Qed.

Lemma mass_kg_of_nonneg p b : 0 <= odflt 1000 (volume b) -> 0 <= mass_kg_of p b.
Proof.
  intros Hv. unfold mass_kg_of, volume_cm3_of.
  pose proof (densities_nonneg (material_of p)) as Hd.
  assert (Hd' : 0 <= odflt (27 # 10) (densities (material_of p)))
    by (destruct (densities (material_of p)); simpl; [assumption|lra]).
  unfold Qdiv. apply Qmult_le_0_compat; [|apply Qinv_le_0_compat; lra].
  apply Qmult_le_0_compat; [|exact Hd'].
  apply Qmult_le_0_compat; [exact Hv|apply Qinv_le_0_compat; lra].
Qed.

Lemma volume_cm3_of_nonneg b : 0 <= odflt 1000 (volume b) -> 0 <= volume_cm3_of b.
Proof.
  intros Hv. unfold volume_cm3_of, Qdiv.
  apply Qmult_le_0_compat; [exact Hv|apply Qinv_le_0_compat; lra].
Qed.

Lemma div_nonneg a b : 0 <= a -> 0 <= b -> 0 <= a / b.
Proof. intros Ha Hb. unfold Qdiv. apply Qmult_le_0_compat; [exact Ha|]. now apply Qinv_le_0_compat. Qed.

Lemma div_antitone c a b : 0 <= c -> 0 < a -> a <= b -> c / b <= c / a.
Proof.
  intros Hc Ha Hab. apply Qle_shift_div_r; [lra|].
  setoid_replace (c / a * b) with (c + c * (b - a) / a) by (field; intro; lra).
  assert (0 <= c * (b - a) / a).
  { apply div_nonneg; [apply Qmult_le_0_compat; lra|lra]. }
  lra.
Qed.

Lemma round_half_even_mono x y : x <= y -> (round_half_even x <= round_half_even y)%Z.
Proof.
  intros H. unfold round_half_even.
  pose proof (Qfloor_le x) as Fx. pose proof (Qlt_floor x) as Lx.
  pose proof (Qfloor_le y) as Fy. pose proof (Qlt_floor y) as Ly.
  pose proof (Qfloor_resp_le x y H) as Fm.
  rewrite inject_Z_plus in Lx, Ly. change (inject_Z 1) with 1 in Lx, Ly.
  destruct (Z.eq_dec (Qfloor x) (Qfloor y)) as [E|E].
  - rewrite <- E in *. set (z := Qfloor x) in *.
    destruct (qltb (x - inject_Z z) (1#2)) eqn:E1;
      [apply qltb_spec in E1|apply qltb_false in E1];
    destruct (qltb (1#2) (x - inject_Z z)) eqn:E2;
      [apply qltb_spec in E2|apply qltb_false in E2|
       apply qltb_spec in E2|apply qltb_false in E2];
    destruct (qltb (y - inject_Z z) (1#2)) eqn:E3;
      try apply qltb_spec in E3; try apply qltb_false in E3;
    destruct (qltb (1#2) (y - inject_Z z)) eqn:E4;
      try apply qltb_spec in E4; try apply qltb_false in E4;
    destruct (Z.even z); first [lia | exfalso; lra].
  - assert (Hlt : (Qfloor x + 1 <= Qfloor y)%Z) by lia.
    destruct (qltb (x - inject_Z (Qfloor x)) (1#2)), (qltb (1#2) (x - inject_Z (Qfloor x))),
      (Z.even (Qfloor x)), (qltb (y - inject_Z (Qfloor y)) (1#2)),
      (qltb (1#2) (y - inject_Z (Qfloor y))), (Z.even (Qfloor y)); lia.
Qed.

Lemma pyround_mono s x y : x <= y -> pyround s x <= pyround s y.
Proof.
  intros H. unfold pyround, Qle; simpl.
  apply Z.mul_le_mono_nonneg_r; [lia|].
  apply round_half_even_mono, Qmult_le_compat_r; [exact H|].
  unfold Qle; simpl; lia.
Qed.

Lemma cnc_discount_eq q u : cnc_discount q u == u * volume_discount q.
Proof.
  unfold cnc_discount, volume_discount.
  destruct (1000 <=? q)%Z, (500 <=? q)%Z, (100 <=? q)%Z; try reflexivity; ring.
Qed.

Lemma volume_discount_antitone q1 q2 :
  (q1 <= q2)%Z -> 0 <= volume_discount q2 <= volume_discount q1.
Proof.
  intros H. unfold volume_discount.
  destruct (1000 <=? q1)%Z eqn:A1, (500 <=? q1)%Z eqn:A2, (100 <=? q1)%Z eqn:A3,
    (1000 <=? q2)%Z eqn:B1, (500 <=? q2)%Z eqn:B2, (100 <=? q2)%Z eqn:B3;
    rewrite ?Z.leb_le, ?Z.leb_gt in *; split; first [lra | exfalso; lia].
Qed.

Lemma pydiv_q_some a q : (0 < q)%Z -> pydiv a (inject_Z q) = Some (a / inject_Z q).
Proof.
  intros Hq. unfold pydiv. destruct (Qeq_bool (inject_Z q) 0) eqn:E; [|reflexivity].
  apply Qeq_bool_iff in E. apply (proj1 (inject_Z_zero q)) in E. lia.
Qed.

Lemma inject_Z_pos q : (0 < q)%Z -> 0 < inject_Z q.
Proof. intros Hq. unfold Qlt; simpl. lia. Qed.

Lemma inject_Z_mono q1 q2 : (q1 <= q2)%Z -> inject_Z q1 <= inject_Z q2.
Proof. intros H. unfold Qle; simpl. lia. Qed.

(** The CNC formula: unit cost non-increasing in the quantity. *)
Lemma cnc_unit_mono mass vol price pp q1 q2 :
  0 <= mass -> 0 <= vol -> 0 <= price -> Forall (fun kv => 0 <= snd kv) pp ->
  (0 < q1 <= q2)%Z ->
  exists e1 e2, estimate_cnc_cost mass vol price pp q1 = Some e1 /\
    estimate_cnc_cost mass vol price pp q2 = Some e2 /\ unit_cost e2 <= unit_cost e1.
Proof.
  intros Hm Hv Hp Hpp [Hq1 Hq12].
  unfold estimate_cnc_cost, cnc_components.
  rewrite !pydiv_q_some by lia. simpl obind.
  do 2 eexists. split; [reflexivity|]. split; [reflexivity|]. simpl unit_cost.
  apply pyround_mono. rewrite !cnc_discount_eq.
  pose proof (qget_nonneg pp "tooling_base" 50 Hpp ltac:(lra)) as Htb.
  pose proof (qget_nonneg pp "overhead_rate" (1#4) Hpp ltac:(lra)) as Hov.
  pose proof (qget_nonneg pp "labor_rate" 16 Hpp ltac:(lra)) as Hlr.
  pose proof (qget_nonneg pp "time_per_cm3" (1#2) Hpp ltac:(lra)) as Htp.
  pose proof (qget_nonneg pp "setup_time" 15 Hpp ltac:(lra)) as Hst.
  set (tb := qget pp "tooling_base" 50) in *.
  set (ov := qget pp "overhead_rate" (1#4)) in *.
  set (lr := qget pp "labor_rate" 16) in *.
  set (tp := qget pp "time_per_cm3" (1#2)) in *.
  set (st := qget pp "setup_time" 15) in *.
  set (A := mass * price + (tp * vol + st) / 60 * lr).
  assert (HA : 0 <= A).
  { assert (0 <= mass * price) by (apply Qmult_le_0_compat; lra).
    assert (0 <= (tp * vol + st) / 60 * lr).
    { apply Qmult_le_0_compat; [|lra]. apply div_nonneg; [|lra].
      assert (0 <= tp * vol) by (apply Qmult_le_0_compat; lra). lra. }
    unfold A. lra. }
  assert (Hd : tb / inject_Z q2 <= tb / inject_Z q1)
    by (apply div_antitone; [lra|apply inject_Z_pos; lia|apply inject_Z_mono; lia]).
  assert (Hd0 : 0 <= tb / inject_Z q2)
    by (apply div_nonneg; [lra|apply Qlt_le_weak, inject_Z_pos; lia]).
  destruct (volume_discount_antitone q1 q2 Hq12) as [Hv0 Hv12].
  setoid_replace ((A + tb / inject_Z q2 + (A + tb / inject_Z q2) * ov))
    with ((A + tb / inject_Z q2) * (1 + ov)) by ring.
  setoid_replace ((A + tb / inject_Z q1 + (A + tb / inject_Z q1) * ov))
    with ((A + tb / inject_Z q1) * (1 + ov)) by ring.
  apply Qmult_le_compat_nonneg; [|lra].
  split; [apply Qmult_le_0_compat; lra|].
  apply Qmult_le_compat_r; lra.
Qed.

(** The injection-molding formula: unit cost non-increasing in the quantity. *)
Lemma injection_unit_mono mass vol price pp q1 q2 e1 :
  Forall (fun kv => 0 <= snd kv) pp -> (0 < q1 <= q2)%Z ->
  estimate_injection_molding_cost mass vol price pp q1 = Some e1 ->
  exists e2, estimate_injection_molding_cost mass vol price pp q2 = Some e2 /\
    unit_cost e2 <= unit_cost e1.
Proof.
  intros Hpp [Hq1 Hq12] He1.
  unfold estimate_injection_molding_cost in *.
  destruct (pydiv 3600 (qget pp "cycle_time" 30)) as [pph|]; simpl in *; [|discriminate].
  destruct (pydiv (qget pp "labor_rate" 12) pph) as [lc|]; simpl in *; [|discriminate].
  rewrite pydiv_q_some in He1 by lia. rewrite pydiv_q_some by lia. simpl in *.
  injection He1 as <-. eexists. split; [reflexivity|]. simpl.
  apply pyround_mono.
  pose proof (qget_nonneg pp "mold_cost" 5000 Hpp ltac:(lra)) as Hmc.
  pose proof (qget_nonneg pp "overhead_rate" (1#5) Hpp ltac:(lra)) as Hov.
  set (mc := qget pp "mold_cost" 5000) in *.
  set (ov := qget pp "overhead_rate" (1#5)) in *.
  assert (Hd : mc / inject_Z q2 <= mc / inject_Z q1)
    by (apply div_antitone; [lra|apply inject_Z_pos; lia|apply inject_Z_mono; lia]).
  setoid_replace (mass * price + lc + mc / inject_Z q2 + (mass * price + lc + mc / inject_Z q2) * ov)
    with ((mass * price + lc + mc / inject_Z q2) * (1 + ov)) by ring.
  setoid_replace (mass * price + lc + mc / inject_Z q1 + (mass * price + lc + mc / inject_Z q1) * ov)
    with ((mass * price + lc + mc / inject_Z q1) * (1 + ov)) by ring.
  apply Qmult_le_compat_r; lra.
Qed.

(** Outside ['3d_printing'] and ['injection_molding'], [estimate_cost] is
    the CNC formula on the process's own rates. *)
Lemma estimate_cost_cnc_path p b q :
  process_of p <> "3d_printing" -> process_of p <> "injection_molding" ->
  estimate_cost p b q =
  estimate_cnc_cost (mass_kg_of p b) (volume_cm3_of b) (material_price_of p)
    (process_params_of p) q.
Proof.
  intros H3 Hi. unfold estimate_cost.
  apply String.eqb_neq in H3, Hi. rewrite H3, Hi.
  destruct (String.eqb (process_of p) "cnc_milling"); reflexivity.
Qed.

End CostMore.

Module CostProps.
Import Cost CostSpec CostClaims CostMore.

(** A process without an entry in the rate table is priced exactly as
    ['cnc_milling']: the CNC defaults of [_estimate_cnc_cost] equal the
    ['cnc_milling'] rates. *)
Theorem estimate_cost_unknown_process p b q :
  process_rates (process_of p) = None ->
  estimate_cost p b q = estimate_cost (with_process p "cnc_milling") b q.
Proof.
  intros H.
  assert (H3 : process_of p <> "3d_printing") by (intros E; rewrite E in H; discriminate).
  assert (Hi : process_of p <> "injection_molding") by (intros E; rewrite E in H; discriminate).
  rewrite (estimate_cost_cnc_path p b q H3 Hi).
  unfold process_params_of. rewrite H. reflexivity.
Qed.

Lemma estimate_cost_unknown_process_witness :
  process_rates (process_of (mk_params None (Some "laser_cutting") None None)) = None /\
  estimate_cost (mk_params None (Some "laser_cutting") None None) (mk_bbox (Some 8000)) 10 =
  estimate_cost (with_process (mk_params None (Some "laser_cutting") None None) "cnc_milling")
    (mk_bbox (Some 8000)) 10.
Proof.
  split; [reflexivity|].
  exact (estimate_cost_unknown_process (mk_params None (Some "laser_cutting") None None)
           (mk_bbox (Some 8000)) 10 eq_refl).
Defined.

(** For every process priced by the CNC formula (['cnc_milling'],
    ['sheet_metal'] and unknown processes) and a non-negative volume, the
    unit cost never rises when the quantity grows: the amortized tooling
    shrinks and the volume discount only deepens. *)
Theorem cnc_unit_cost_nonincreasing p b q1 q2 :
  process_of p <> "3d_printing" -> process_of p <> "injection_molding" ->
  0 <= odflt 1000 (volume b) -> (0 < q1 <= q2)%Z ->
  exists e1 e2, estimate_cost p b q1 = Some e1 /\ estimate_cost p b q2 = Some e2 /\
    unit_cost e2 <= unit_cost e1.
Proof.
  intros H3 Hi Hv Hq.
  rewrite !(estimate_cost_cnc_path p b _ H3 Hi).
  apply cnc_unit_mono; [apply mass_kg_of_nonneg; exact Hv|apply volume_cm3_of_nonneg; exact Hv|
                        apply material_price_of_nonneg|apply process_rates_nonneg|exact Hq].
Qed.

Lemma cnc_unit_cost_nonincreasing_witness :
  exists e1 e2,
    estimate_cost (mk_params None (Some "sheet_metal") None None) (mk_bbox (Some 8000)) 99
      = Some e1 /\
    estimate_cost (mk_params None (Some "sheet_metal") None None) (mk_bbox (Some 8000)) 100
      = Some e2 /\ unit_cost e2 <= unit_cost e1.
Proof.
  apply (cnc_unit_cost_nonincreasing (mk_params None (Some "sheet_metal") None None)
           (mk_bbox (Some 8000)) 99 100); [discriminate|discriminate|simpl; lra|lia].
Defined.

(** With ['injection_molding'] the unit cost never rises when the quantity
    grows: only the amortized mold cost depends on it. *)
Theorem injection_unit_cost_nonincreasing p b q1 q2 :
  process_of p = "injection_molding" -> (0 < q1 <= q2)%Z ->
  exists e1 e2, estimate_cost p b q1 = Some e1 /\ estimate_cost p b q2 = Some e2 /\
    unit_cost e2 <= unit_cost e1.
Proof.
  intros Hp Hq.
  assert (Hq1 : q1 <> 0%Z) by lia.
  destruct (proj2 (estimate_cost_defined p b q1) (or_introl Hq1)) as [e1 He1].
  exists e1.
  assert (E : forall q, estimate_cost p b q =
    estimate_injection_molding_cost (mass_kg_of p b) (volume_cm3_of b) (material_price_of p)
      (process_params_of p) q).
  { intros q. unfold estimate_cost. rewrite Hp. reflexivity. }
  rewrite E in He1. rewrite !E.
  destruct (injection_unit_mono _ _ _ _ q1 q2 e1 (process_rates_nonneg _) Hq He1)
    as [e2 [He2 Hle]].
  exists e2. auto.
Qed.

Lemma injection_unit_cost_nonincreasing_witness :
  exists e1 e2,
    estimate_cost (mk_params None (Some "injection_molding") None None) (mk_bbox None) 10
      = Some e1 /\
    estimate_cost (mk_params None (Some "injection_molding") None None) (mk_bbox None) 5000
      = Some e2 /\ unit_cost e2 <= unit_cost e1.
Proof.
  apply (injection_unit_cost_nonincreasing (mk_params None (Some "injection_molding") None None)
           (mk_bbox None) 10 5000); [reflexivity|lia].
Defined.

(** Every estimate echoes the requested quantity and names the formula
    that priced it: ['3d_printing'] or ['injection_molding'] when asked
    for, ['cnc_milling'] for every other process, so ['sheet_metal'] or an
    unknown process is never reported under its own name. *)
Theorem estimate_cost_reported_process p b q e :
  estimate_cost p b q = Some e ->
  quantity e = q /\
  process e = (if String.eqb (process_of p) "3d_printing" then "3d_printing"
               else if String.eqb (process_of p) "injection_molding" then "injection_molding"
               else "cnc_milling").
Proof.
  intros H.
  assert (Hcnc : forall m v pr pp, estimate_cnc_cost m v pr pp q = Some e ->
                 quantity e = q /\ process e = "cnc_milling").
  { intros m v pr pp Hc. unfold estimate_cnc_cost in Hc.
    destruct (cnc_components m v pr pp q); cbn [obind] in Hc; [|discriminate].
    injection Hc as <-. split; reflexivity. }
  unfold estimate_cost in H.
  destruct (String.eqb (process_of p) "3d_printing") eqn:E2.
  { destruct (String.eqb (process_of p) "cnc_milling") eqn:E1.
    - apply String.eqb_eq in E1. rewrite E1 in E2. vm_compute in E2. discriminate E2.
    - injection H as <-. split; reflexivity. }
  destruct (String.eqb (process_of p) "injection_molding") eqn:E3.
  { destruct (String.eqb (process_of p) "cnc_milling") eqn:E1.
    - apply String.eqb_eq in E1. rewrite E1 in E3. vm_compute in E3. discriminate E3.
    - unfold estimate_injection_molding_cost in H.
      destruct (pydiv _ _); cbn [obind] in H; [|discriminate].
      destruct (pydiv _ _); cbn [obind] in H; [|discriminate].
      destruct (pydiv _ _); cbn [obind] in H; [|discriminate].
      injection H as <-. split; reflexivity. }
  destruct (String.eqb (process_of p) "cnc_milling"); exact (Hcnc _ _ _ _ H).
Qed.

Lemma estimate_cost_reported_process_witness :
  exists e,
    estimate_cost (mk_params None (Some "sheet_metal") None None) (mk_bbox None) 7 = Some e /\
    quantity e = 7%Z /\ process e = "cnc_milling".
Proof.
  assert (Hq : (7 <> 0)%Z) by discriminate.
  destruct (proj2 (estimate_cost_defined (mk_params None (Some "sheet_metal") None None)
                     (mk_bbox None) 7) (or_introl Hq)) as [e He].
  exists e. split; [exact He|].
  exact (estimate_cost_reported_process (mk_params None (Some "sheet_metal") None None)
           (mk_bbox None) 7 e He).
Defined.

End CostProps.
